(** * Multi-animation LED matrix loop (64x64 version): model and properties

    A shallow embedding of [64x64-version-scales-32x32-images.py]:
    the 2x nearest-neighbour scaler ([scale_bitmap_2x] and the inline
    loop of [play_animation]), the geometry validation, the timed
    playback loop, [transition_to_black] and the main loop.

    Python integers are [Z].  A [displayio.Bitmap] is a record holding
    its dimensions and a row-major list of palette indices.  Exceptions
    are values of [exn]; code that can raise returns a [result], and
    code that also touches the display, the clock or the console is a
    function on [World] that keeps the world reached when it raises. *)

From Stdlib Require Import ZArith List Lia String.
From stdpp Require Import base list strings.
Import ListNotations.

Local Open Scope Z_scope.

(** ** Exceptions and the error monad *)

(** The payload of the [ValueError]s the program can meet.  The first
    two are the f-strings raised by [play_animation]; the others are
    raised by the [displayio] and [time] collaborators. *)
Inductive message : Type :=
| WidthNotMultiple (bitmap_name : string) (width tile : Z)
| HeightNot32Or64 (bitmap_name : string) (height : Z)
| BadBitmapArguments
| PixelValueTooManyBits
| SleepLengthNegative.

Inductive exn : Type :=
| ValueError (m : message)
| IndexError
| ZeroDivisionError
| OSError (detail : string).

Inductive result (A : Type) : Type :=
| Ok (a : A)
| Err (e : exn).
Arguments Ok {A} a.
Arguments Err {A} e.

Definition rbind {A B} (r : result A) (k : A -> result B) : result B :=
  match r with
  | Ok a => k a
  | Err e => Err e
  end.

Declare Scope result_scope.
Delimit Scope result_scope with result.
Notation "'let?' x := r 'in' k" := (rbind r (fun x => k))
  (at level 10, x pattern, r at level 100, k at level 200) : result_scope.

(** [for i in items: s = body(i, s)], stopping at the first exception. *)
Fixpoint for_each {S : Type} (items : list Z) (body : Z -> S -> result S)
    (s : S) : result S :=
  match items with
  | [] => Ok s
  | i :: rest =>
      match body i s with
      | Ok s' => for_each rest body s'
      | Err e => Err e
      end
  end.

(** Python's [range(n)]: [0, 1, ..., n-1], empty when [n <= 0]. *)
Definition range (n : Z) : list Z := map Z.of_nat (seq 0 (Z.to_nat n)).

(** ** The [displayio] collaborator *)

(** The part of CircuitPython's [displayio] the program relies on.  A
    new bitmap is zero-filled; reading or writing outside the grid
    raises [IndexError]; storing a value that needs more bits than the
    bitmap keeps per pixel raises [ValueError]; the cell of a grid
    takes whatever tile index it is given.  The properties below use
    reads and writes inside the grid; of the others they use only that
    what is raised is an [IndexError] or a [ValueError].  Allocation
    limits are not modelled. *)
Module displayio.

(** A [Palette] is an ordered sequence of colour entries. *)
Definition Palette : Type := list Z.
Definition len (p : Palette) : Z := Z.of_nat (length p).

Record Bitmap : Type := mkBitmap {
  width : Z;
  height : Z;
  bits_per_value : Z;
  data : list Z
}.

(** Number of bits the bitmap keeps per pixel for [value_count]
    possible values: the least of 1, 2, 4, 8, 16 that is enough. *)
Definition bits_for (value_count : Z) : Z :=
  if value_count - 1 <? 2 then 1
  else if value_count - 1 <? 4 then 2
  else if value_count - 1 <? 16 then 4
  else if value_count - 1 <? 256 then 8
  else 16.

(** [displayio.Bitmap(width, height, value_count)]: a zero-filled
    bitmap. *)
Definition Bitmap_new (w h value_count : Z) : result Bitmap :=
  if (w <? 0) || (h <? 0) || (value_count <? 1) || (65536 <? value_count)
  then Err (ValueError BadBitmapArguments)
  else Ok {| width := w; height := h;
             bits_per_value := bits_for value_count;
             data := repeat 0 (Z.to_nat (w * h)) |}.

Definition in_bounds (b : Bitmap) (x y : Z) : bool :=
  (0 <=? x) && (x <? width b) && (0 <=? y) && (y <? height b).

(** Row-major position of pixel [(x, y)]. *)
Definition offset (b : Bitmap) (x y : Z) : nat :=
  Z.to_nat (y * width b + x).

(** [bitmap[x, y]] *)
Definition getpixel (b : Bitmap) (x y : Z) : result Z :=
  if in_bounds b x y then
    match data b !! offset b x y with
    | Some v => Ok v
    | None => Err IndexError
    end
  else Err IndexError.

(** [bitmap[x, y] = value] *)
Definition setpixel (b : Bitmap) (x y value : Z) : result Bitmap :=
  if in_bounds b x y then
    if (0 <=? value) && (value <? 2 ^ bits_per_value b) then
      Ok {| width := width b; height := height b;
            bits_per_value := bits_per_value b;
            data := <[offset b x y := value]> (data b) |}
    else Err (ValueError PixelValueTooManyBits)
  else Err IndexError.

(** A [TileGrid] of one cell showing one tile of [bitmap]; [tile] is
    the index stored in cell 0. *)
Record TileGrid : Type := mkTileGrid {
  bitmap : Bitmap;
  pixel_shader : Palette;
  tile_width : Z;
  tile_height : Z;
  tile : Z
}.

Definition tiles_in_bitmap (g : TileGrid) : Z :=
  (width (bitmap g) / tile_width g) * (height (bitmap g) / tile_height g).

Definition with_tile (g : TileGrid) (value : Z) : TileGrid :=
  {| bitmap := bitmap g; pixel_shader := pixel_shader g;
     tile_width := tile_width g; tile_height := tile_height g;
     tile := value |}.

(** [grid[0] = value]: the grid takes the index it is given. *)
Definition settile (g : TileGrid) (value : Z) : result TileGrid :=
  Ok (with_tile g value).

End displayio.
Import displayio.

Local Open Scope result_scope.

(** ** The scaler *)

(** [scale_bitmap_2x(source_bitmap, source_palette)] *)
Definition scale_bitmap_2x (source_bitmap : Bitmap) (source_palette : Palette)
    : result Bitmap :=
  let? scaled_bitmap := Bitmap_new 64 64 (len source_palette) in
  for_each (range 32) (fun y scaled_bitmap =>
    for_each (range 32) (fun x scaled_bitmap =>
      let? pixel_value := getpixel source_bitmap x y in
      let? scaled_bitmap := setpixel scaled_bitmap (x * 2) (y * 2) pixel_value in
      let? scaled_bitmap := setpixel scaled_bitmap (x * 2 + 1) (y * 2) pixel_value in
      let? scaled_bitmap := setpixel scaled_bitmap (x * 2) (y * 2 + 1) pixel_value in
      let? scaled_bitmap := setpixel scaled_bitmap (x * 2 + 1) (y * 2 + 1) pixel_value in
      Ok scaled_bitmap) scaled_bitmap) scaled_bitmap.

(** The [for frame in range(original_frames)] loop of [play_animation]
    that fills [scaled_bitmap] from [image_bit]. *)
Definition scale_frames (image_bit : Bitmap) (original_frames : Z)
    (scaled_bitmap : Bitmap) : result Bitmap :=
  for_each (range original_frames) (fun frame scaled_bitmap =>
    let source_x_start := frame * 32 in
    for_each (range 32) (fun y scaled_bitmap =>
      for_each (range 32) (fun x scaled_bitmap =>
        let? pixel_value := getpixel image_bit (source_x_start + x) y in
        let dest_x_start := frame * 64 in
        let? scaled_bitmap :=
          setpixel scaled_bitmap (dest_x_start + x * 2) (y * 2) pixel_value in
        let? scaled_bitmap :=
          setpixel scaled_bitmap (dest_x_start + x * 2 + 1) (y * 2) pixel_value in
        let? scaled_bitmap :=
          setpixel scaled_bitmap (dest_x_start + x * 2) (y * 2 + 1) pixel_value in
        let? scaled_bitmap :=
          setpixel scaled_bitmap (dest_x_start + x * 2 + 1) (y * 2 + 1) pixel_value in
        Ok scaled_bitmap) scaled_bitmap) scaled_bitmap) scaled_bitmap.

(** ** The world: clock, display group and console *)

(** The lines [play_animation] and the main loop print. *)
Inductive line : Type :=
| ScalingLine
| FullScreenLine
| FrameLine (bitmap_name : string) (frame total_frames : Z)
| ErrorLine (bitmap_name : string) (e : exn).

Inductive event : Type :=
| Printed (l : line)
| Slept (seconds : Z)
| Shown (frame : Z).

(** [now] is the reading of [time.monotonic()], counted in a fixed unit
    of time; only [time.sleep] advances it, by exactly its argument.
    This clock is exact where the clock of the source is a float, and
    printing and rendering take no time in it: which sleeps are made,
    and in what order, is as in the source, but how many cadences fit
    in a duration need not be.  [group] is the display group, most
    recently appended member first.  [trace] records what has been
    printed, slept and shown, oldest first. *)
Record World : Type := mkWorld {
  now : Z;
  group : list TileGrid;
  trace : list event
}.

(** How a statement ends: normally, by raising (the world reached is
    kept), or not within the loop budget. *)
Inductive outcome (A : Type) : Type :=
| Done (a : A) (w : World)
| Raised (e : exn) (w : World)
| OutOfFuel.
Arguments Done {A} a w.
Arguments Raised {A} e w.
Arguments OutOfFuel {A}.

Definition M (A : Type) : Type := World -> outcome A.

Definition ret {A} (a : A) : M A := fun w => Done a w.

Definition bind {A B} (c : M A) (k : A -> M B) : M B := fun w =>
  match c w with
  | Done a w' => k a w'
  | Raised e w' => Raised e w'
  | OutOfFuel => OutOfFuel
  end.

Definition raise {A} (e : exn) : M A := fun w => Raised e w.

Definition lift {A} (r : result A) : M A := fun w =>
  match r with
  | Ok a => Done a w
  | Err e => Raised e w
  end.

Declare Scope world_scope.
Delimit Scope world_scope with world.
Notation "x <- c ;; k" := (bind c (fun x => k))
  (at level 100, c at next level, right associativity) : world_scope.
Notation "c ;; k" := (bind c (fun _ => k))
  (at level 100, right associativity) : world_scope.
Local Open Scope world_scope.

(** [try: body  except Exception as e: handler(e)] *)
Definition try_except {A} (body : M A) (handler : exn -> M A) : M A := fun w =>
  match body w with
  | Done a w' => Done a w'
  | Raised e w' => handler e w'
  | OutOfFuel => OutOfFuel
  end.

Definition emit (ev : event) (w : World) : World :=
  {| now := now w; group := group w; trace := trace w ++ [ev] |}.

(** [print(...)] *)
Definition print (l : line) : M unit := fun w => Done tt (emit (Printed l) w).

(** [time.monotonic()] *)
Definition monotonic : M Z := fun w => Done (now w) w.

(** [time.sleep(seconds)] *)
Definition sleep (seconds : Z) : M unit := fun w =>
  if seconds <? 0 then Raised (ValueError SleepLengthNegative) w
  else Done tt {| now := now w + seconds; group := group w;
                  trace := trace w ++ [Slept seconds] |}.

(** [while len(group) > 0: group.pop()] *)
Fixpoint pop_all (members : list TileGrid) : list TileGrid :=
  match members with
  | [] => []
  | _ :: rest => pop_all rest
  end.

Definition clear_group : M unit := fun w =>
  Done tt {| now := now w; group := pop_all (group w); trace := trace w |}.

(** [group.append(image_grid)] *)
Definition group_append (image_grid : TileGrid) : M unit := fun w =>
  Done tt {| now := now w; group := image_grid :: group w; trace := trace w |}.

(** The grid last appended to the group is the object [image_grid]
    names; a write to it is seen through the group. *)
Definition write_through (image_grid : TileGrid) (members : list TileGrid)
    : list TileGrid :=
  match members with
  | [] => []
  | _ :: rest => image_grid :: rest
  end.

(** [image_grid[0] = frame] *)
Definition image_grid_set (image_grid : TileGrid) (frame : Z) : M TileGrid :=
  fun w =>
  match settile image_grid frame with
  | Ok g => Done g {| now := now w; group := write_through g (group w);
                      trace := trace w ++ [Shown frame] |}
  | Err e => Raised e w
  end.

(** [a % b] *)
Definition pymod (a b : Z) : result Z :=
  if b =? 0 then Err ZeroDivisionError else Ok (a mod b).

(** ** The configuration block of the source, and sample clips *)

Module Config.

(** Times are counted in milliseconds: 0.1 s and 3.0 s. *)
Definition animation_speed : Z := 100.
Definition play_time : Z := 3000.
Definition transition_frames : Z := 5.
Definition image_path : string := "graphics/".
Definition bitmap_names : list string :=
  ["octopus"; "ghost"; "parrot"; "girl-earing-half"; "mona-half"].

End Config.

Module Sample.

Definition palette : Palette := [0; 16711680; 65280; 255].

(** A bitmap whose pixel at row-major position [i] is [i mod 4]. *)
Definition striped (w h : Z) : Bitmap :=
  {| width := w; height := h; bits_per_value := 2;
     data := map (fun i => i mod 4) (range (w * h)) |}.

(** Three legacy frames side by side. *)
Definition octopus : Bitmap := striped 96 32.

(** One full-size frame. *)
Definition mona_half : Bitmap := striped 64 64.

(** A bitmap of neither size class. *)
Definition thumbnail : Bitmap := striped 16 16.

(** The middle frame of [octopus] as a bitmap of its own. *)
Definition octopus_frame1 : Bitmap :=
  {| width := 32; height := 32; bits_per_value := 2;
     data := flat_map (fun y => map (fun x => (y * 96 + 32 + x) mod 4) (range 32))
               (range 32) |}.

(** A store holding three of the configured clips. *)
Definition load (path : string) : result (Bitmap * Palette) :=
  if String.eqb path "/graphics/octopus.bmp" then Ok (octopus, palette)
  else if String.eqb path "/graphics/mona-half.bmp" then Ok (mona_half, palette)
  else if String.eqb path "/graphics/ghost.bmp" then Ok (thumbnail, palette)
  else Err (OSError "no such file").

(** A budget above the 30 passes a clip of 3.0 s makes at 0.1 s. *)
Definition fuel : nat := 64.

Definition boot : World := {| now := 0; group := []; trace := [] |}.

(** A grid over a strip of three full-size frames, and the world
    with it installed. *)
Definition three_frames : TileGrid :=
  {| bitmap := striped 192 64; pixel_shader := palette;
     tile_width := 64; tile_height := 64; tile := 0 |}.

Definition showing : World :=
  {| now := 0; group := [three_frames]; trace := [] |}.

(** A strip of no columns, and a store that holds it under every name. *)
Definition no_columns : Bitmap := striped 0 64.

Definition load_no_columns (path : string) : result (Bitmap * Palette) :=
  Ok (no_columns, palette).

(** A store with no file at all. *)
Definition missing : exn := OSError "no such file".

Definition empty_store (path : string) : result (Bitmap * Palette) :=
  Err missing.

End Sample.

(** ** The program *)

Section Program.

Set Default Proof Using "Type".

(** The configuration block; times are counted in the clock's unit. *)
Variable animation_speed : Z.
Variable play_time : Z.
Variable transition_frames : Z.
Variable image_path : string.
Variable bitmap_names : list string.

(** [adafruit_imageload.load(path, bitmap=..., palette=...)] *)
Variable load : string -> result (Bitmap * Palette).

(** Budget for the iterations of the playback [while] loop. *)
Variable fuel : nat.

(** The [if image_bit.height == 32: ... elif ... == 64: ... else: ...]
    block of [play_animation]; it yields
    [(final_bitmap, frame_width, frame_height, total_frames)]. *)
Definition classify (bitmap_name : string) (image_bit : Bitmap)
    (image_pal : Palette) : M (Bitmap * Z * Z * Z) :=
  if height image_bit =? 32 then
    if negb (width image_bit mod 32 =? 0) then
      raise (ValueError (WidthNotMultiple bitmap_name (width image_bit) 32))
    else
      let original_frames := width image_bit / 32 in
      print ScalingLine ;;
      let scaled_width := original_frames * 64 in
      scaled_bitmap <- lift (Bitmap_new scaled_width 64 (len image_pal)) ;;
      scaled_bitmap <- lift (scale_frames image_bit original_frames scaled_bitmap) ;;
      let final_bitmap := scaled_bitmap in
      let frame_width := 64 in
      let frame_height := 64 in
      let total_frames := original_frames in
      ret (final_bitmap, frame_width, frame_height, total_frames)
  else if height image_bit =? 64 then
    if negb (width image_bit mod 64 =? 0) then
      raise (ValueError (WidthNotMultiple bitmap_name (width image_bit) 64))
    else
      let final_bitmap := image_bit in
      let frame_width := 64 in
      let frame_height := 64 in
      let total_frames := width image_bit / 64 in
      print FullScreenLine ;;
      ret (final_bitmap, frame_width, frame_height, total_frames)
  else
    raise (ValueError (HeightNot32Or64 bitmap_name (height image_bit))).

(** [while time.monotonic() - start_time < duration: ...] *)
Fixpoint play_loop (n : nat) (bitmap_name : string)
    (total_frames start_time duration : Z)
    (image_grid : TileGrid) (frame : Z) : M unit :=
  t <- monotonic ;;
  if t - start_time <? duration then
    match n with
    | O => fun _ => OutOfFuel
    | S n' =>
        image_grid <- image_grid_set image_grid frame ;;
        frame <- lift (pymod (frame + 1) total_frames) ;;
        print (FrameLine bitmap_name frame total_frames) ;;
        sleep animation_speed ;;
        play_loop n' bitmap_name total_frames start_time duration
          image_grid frame
    end
  else ret tt.

(** [play_animation(bitmap_name, duration)] *)
Definition play_animation (bitmap_name : string) (duration : Z) : M unit :=
  let bmp_file_path :=
    ("/" ++ image_path ++ bitmap_name ++ ".bmp")%string in
  loaded <- lift (load bmp_file_path) ;;
  let '(image_bit, image_pal) := loaded in
  classified <- classify bitmap_name image_bit image_pal ;;
  let '(final_bitmap, frame_width, frame_height, total_frames) :=
    classified in
  clear_group ;;
  let image_grid :=
    {| bitmap := final_bitmap; pixel_shader := image_pal;
       tile_width := frame_width; tile_height := frame_height;
       tile := 0 |} in
  group_append image_grid ;;
  let frame := 0 in
  start_time <- monotonic ;;
  play_loop fuel bitmap_name total_frames start_time duration
    image_grid frame.

(** [for _ in range(transition_frames): time.sleep(animation_speed)] *)
Fixpoint sleep_each (items : list Z) : M unit :=
  match items with
  | [] => ret tt
  | _ :: rest => sleep animation_speed ;; sleep_each rest
  end.

(** [transition_to_black()] *)
Definition transition_to_black : M unit :=
  clear_group ;;
  sleep_each (range transition_frames).

(** The body of [for bitmap_name in bitmap_names]. *)
Definition clip_iteration (bitmap_name : string) : M unit :=
  try_except
    (play_animation bitmap_name play_time ;;
     transition_to_black)
    (fun e =>
       print (ErrorLine bitmap_name e) ;;
       transition_to_black).

Fixpoint for_each_clip (names : list string) : M unit :=
  match names with
  | [] => ret tt
  | bitmap_name :: rest => clip_iteration bitmap_name ;; for_each_clip rest
  end.

(** The first [rounds] rounds of [while True: for bitmap_name in
    bitmap_names: ...]. *)
Fixpoint main_loop (rounds : nat) : M unit :=
  match rounds with
  | O => ret tt
  | S rounds' => for_each_clip bitmap_names ;; main_loop rounds'
  end.

(** * Vocabulary of the properties *)

(** The library's own invariant: one stored value per pixel. *)
Definition grid_ok (b : Bitmap) : Prop :=
  0 <= width b /\ 0 <= height b /\
  length (data b) = Z.to_nat (width b * height b).

Definition same_shape (b b' : Bitmap) : Prop :=
  width b' = width b /\ height b' = height b /\
  bits_per_value b' = bits_per_value b /\
  length (data b') = length (data b).

(** The body shared by both scalers: read the source pixel at
    [(sx + x, y)] and store it in the 2x2 block of the destination at
    [(dx + 2x, 2y)]. *)
Definition put_block (src : Bitmap) (sx dx : Z) (y x : Z) (d : Bitmap)
    : result Bitmap :=
  let? pixel_value := getpixel src (sx + x) y in
  let? d := setpixel d (dx + x * 2) (y * 2) pixel_value in
  let? d := setpixel d (dx + x * 2 + 1) (y * 2) pixel_value in
  let? d := setpixel d (dx + x * 2) (y * 2 + 1) pixel_value in
  let? d := setpixel d (dx + x * 2 + 1) (y * 2 + 1) pixel_value in
  Ok d.

(** One tile: the [for y in range(32): for x in range(32):] nest. *)
Definition scale_tile (src : Bitmap) (sx dx : Z) (d : Bitmap) : result Bitmap :=
  for_each (range 32) (fun y d =>
    for_each (range 32) (fun x d => put_block src sx dx y x d) d) d.

Definition in_block (dx x y X Y : Z) : bool :=
  ((X =? dx + x * 2) || (X =? dx + x * 2 + 1)) &&
  ((Y =? y * 2) || (Y =? y * 2 + 1)).

(** Every value stored in [src] can be stored in [d]. *)
Definition values_fit (src d : Bitmap) : Prop :=
  forall v, In v (data src) -> 0 <= v < 2 ^ bits_per_value d.

(** [painted src sx dx inside d0 d]: [d] has the shape of [d0]; inside
    the region it holds the source pixels doubled, outside it still
    holds what [d0] held. *)
Definition painted (src : Bitmap) (sx dx : Z) (inside : Z -> Z -> bool)
    (d0 d : Bitmap) : Prop :=
  same_shape d0 d /\
  forall X Y, getpixel d X Y =
              if inside X Y then getpixel src (sx + (X - dx) / 2) (Y / 2)
              else getpixel d0 X Y.

Definition in_row (dx x y X Y : Z) : bool :=
  (dx <=? X) && (X <? dx + x * 2) && (y * 2 <=? Y) && (Y <? y * 2 + 2).

Definition in_rows (dx y X Y : Z) : bool :=
  (dx <=? X) && (X <? dx + 64) && (0 <=? Y) && (Y <? y * 2).

Ltac div_lia := Z.div_mod_to_equations'; lia.

Definition in_frames (f X Y : Z) : bool :=
  (0 <=? X) && (X <? f * 64) && (0 <=? Y) && (Y <? 64).

(** The invariants of a loaded image: positive dimensions, one stored
    value per pixel, every value a valid index into the palette, and a
    palette no larger than a bitmap can address. *)
Definition well_formed (b : Bitmap) (pal : Palette) : bool :=
  (0 <? width b) && (0 <? height b) &&
  (Z.of_nat (length (data b)) =? width b * height b) &&
  forallb (fun v => (0 <=? v) && (v <? len pal)) (data b) &&
  (len pal <=? 65536).

Definition scaler_error (e : exn) : Prop :=
  e = IndexError \/ e = ValueError PixelValueTooManyBits.

(** The errors of [play_animation]'s own geometry checks. *)
Definition is_geometry_error (e : exn) : bool :=
  match e with
  | ValueError (WidthNotMultiple _ _ _) => true
  | ValueError (HeightNot32Or64 _ _) => true
  | _ => false
  end.

(** The geometry the two size classes exclude: a height that is neither
    32 nor 64, or a 32-high bitmap whose width is not a multiple of 32,
    or a 64-high bitmap whose width is not a multiple of 64. *)
Definition unsupported_geometry (b : Bitmap) : bool :=
  (negb (height b =? 32) && negb (height b =? 64))
  || ((height b =? 32) && negb (width b mod 32 =? 0))
  || ((height b =? 64) && negb (width b mod 64 =? 0)).

(** The world [transition_to_black] leaves: an empty group, and
    [transition_frames] sleeps of [animation_speed] each. *)
Definition blanked (w : World) : World :=
  {| now := now w + Z.of_nat (Z.to_nat transition_frames) * animation_speed;
     group := [];
     trace := trace w ++ repeat (Slept animation_speed) (Z.to_nat transition_frames) |}.

(** Number of passes through the playback loop on the exact clock: the
    least [k] with [k * animation_speed >= duration]. *)
Definition ticks (duration : Z) : nat :=
  Z.to_nat ((duration + animation_speed - 1) / animation_speed).

(** What one pass shows, prints and sleeps, [k] passes after the start. *)
Definition tick_events (bitmap_name : string) (total_frames : Z) (k : Z)
    : list event :=
  [Shown (k mod total_frames);
   Printed (FrameLine bitmap_name ((k + 1) mod total_frames) total_frames);
   Slept animation_speed].

(** Two grids over the same bitmap, palette and tile size. *)
Definition same_grid (g g' : TileGrid) : Prop :=
  bitmap g' = bitmap g /\ pixel_shader g' = pixel_shader g /\
  tile_width g' = tile_width g /\ tile_height g' = tile_height g.

Definition bmp_file_path (bitmap_name : string) : string :=
  ("/" ++ image_path ++ bitmap_name ++ ".bmp")%string.

(** Events that carry no line naming a clip. *)
Definition quiet (evs : list event) : Prop :=
  evs = [] \/ evs = [Printed ScalingLine] \/ evs = [Printed FullScreenLine].

(** Events of a clip that raised before its first frame line: a quiet
    start, then at most the write of tile 0. *)
Definition silent (evs : list event) : Prop :=
  exists q, quiet q /\ (evs = q \/ evs = q ++ [Shown 0]).

(** The lengths of the sleeps made, oldest first. *)
Fixpoint slept (evs : list event) : list Z :=
  match evs with
  | [] => []
  | Slept seconds :: rest => seconds :: slept rest
  | _ :: rest => slept rest
  end.

(** The frame indices written to the grid, oldest first. *)
Fixpoint shown (evs : list event) : list Z :=
  match evs with
  | [] => []
  | Shown frame :: rest => frame :: shown rest
  | _ :: rest => shown rest
  end.

(** The frame index an event carries, if any, lies in [[0, total)]. *)
Definition frame_in_range (total : Z) (ev : event) : Prop :=
  match ev with
  | Shown frame => 0 <= frame < total
  | Printed (FrameLine _ frame _) => 0 <= frame < total
  | _ => True
  end.

(** Lines that name the clip: its frame lines and its error line. *)
Definition names_clip (bitmap_name : string) (ev : event) : bool :=
  match ev with
  | Printed (FrameLine n _ _) => String.eqb n bitmap_name
  | Printed (ErrorLine n _) => String.eqb n bitmap_name
  | _ => false
  end.

(** Whether [src] holds, pixel for pixel, frame [f] of the strip [img]. *)
Definition tile_matches (src img : Bitmap) (f : Z) : bool :=
  forallb (fun y =>
    forallb (fun x =>
      match getpixel src x y, getpixel img (f * 32 + x) y with
      | Ok a, Ok b => a =? b
      | _, _ => false
      end) (range 32)) (range 32).

(** * Properties *)

(** ** Pixels of a bitmap *)

Lemma same_shape_refl b : same_shape b b.
Proof. unfold same_shape; auto. Qed.

Lemma same_shape_trans b1 b2 b3 :
  same_shape b1 b2 -> same_shape b2 b3 -> same_shape b1 b3.
Proof.
  unfold same_shape. intros (W1 & H1 & B1 & L1) (W2 & H2 & B2 & L2).
  repeat split; congruence.
Qed.

Lemma same_shape_grid_ok b b' : same_shape b b' -> grid_ok b -> grid_ok b'.
Proof.
  unfold same_shape, grid_ok.
  intros (Hw & Hh & _ & Hl) (H1 & H2 & H3). rewrite Hw, Hh, Hl. auto.
Qed.

Lemma in_bounds_true b x y :
  in_bounds b x y = true <-> 0 <= x < width b /\ 0 <= y < height b.
Proof. unfold in_bounds. lia. Qed.

Lemma in_bounds_shape b b' x y :
  same_shape b b' -> in_bounds b' x y = in_bounds b x y.
Proof. intros (Hw & Hh & _). unfold in_bounds. rewrite Hw, Hh. reflexivity. Qed.

Lemma offset_lt b x y :
  grid_ok b -> in_bounds b x y = true -> (offset b x y < length (data b))%nat.
Proof.
  intros (Hw & Hh & Hl) Hin. apply in_bounds_true in Hin.
  rewrite Hl. unfold offset. nia.
Qed.

Lemma offset_inj b x y x' y' :
  in_bounds b x y = true -> in_bounds b x' y' = true ->
  offset b x y = offset b x' y' -> x = x' /\ y = y'.
Proof.
  intros Hin Hin' Heq.
  apply in_bounds_true in Hin. apply in_bounds_true in Hin'.
  unfold offset in Heq.
  assert (Hz : y * width b + x = y' * width b + x') by nia.
  assert (y = y') by nia. subst y'. lia.
Qed.

(** Reading inside the grid never raises. *)
Lemma getpixel_in_bounds b x y :
  grid_ok b -> in_bounds b x y = true -> exists v, getpixel b x y = Ok v.
Proof.
  intros Hok Hin. unfold getpixel. rewrite Hin.
  destruct (data b !! offset b x y) as [v|] eqn:Hl; [eauto|].
  apply lookup_ge_None in Hl. pose proof (offset_lt b x y Hok Hin). lia.
Qed.

Lemma getpixel_out_of_bounds b x y :
  in_bounds b x y = false -> getpixel b x y = Err IndexError.
Proof. intros Hin. unfold getpixel. rewrite Hin. reflexivity. Qed.

Lemma getpixel_elem b x y v : getpixel b x y = Ok v -> In v (data b).
Proof.
  unfold getpixel. destruct (in_bounds b x y); [|discriminate].
  destruct (data b !! offset b x y) as [u|] eqn:Hl; [|discriminate].
  intros [= <-]. apply list_elem_of_In. apply list_elem_of_lookup. eauto.
Qed.

(** A store inside the grid with a value that fits succeeds, changes
    exactly the pixel written and keeps the shape. *)
Lemma setpixel_spec b x y v :
  grid_ok b -> in_bounds b x y = true -> 0 <= v < 2 ^ bits_per_value b ->
  exists b', setpixel b x y v = Ok b' /\ same_shape b b' /\
    getpixel b' x y = Ok v /\
    forall X Y, (X, Y) <> (x, y) -> getpixel b' X Y = getpixel b X Y.
Proof.
  intros Hok Hin Hv. unfold setpixel. rewrite Hin.
  replace ((0 <=? v) && (v <? 2 ^ bits_per_value b)) with true by lia.
  eexists; split; [reflexivity|].
  assert (Hs : same_shape b
            {| width := width b; height := height b;
               bits_per_value := bits_per_value b;
               data := <[offset b x y := v]> (data b) |}).
  { unfold same_shape; cbn. rewrite length_insert. auto. }
  split; [exact Hs|]. split.
  - unfold getpixel. rewrite (in_bounds_shape _ _ _ _ Hs), Hin. cbn.
    unfold offset at 1; cbn. fold (offset b x y).
    rewrite list_lookup_insert_eq; [reflexivity|].
    apply offset_lt; assumption.
  - intros X Y Hne. unfold getpixel.
    rewrite (in_bounds_shape _ _ _ _ Hs).
    destruct (in_bounds b X Y) eqn:HinX; [|reflexivity]. cbn.
    unfold offset at 1; cbn. fold (offset b X Y).
    rewrite list_lookup_insert_ne; [reflexivity|].
    intros Heq. destruct (offset_inj b x y X Y Hin HinX Heq). congruence.
Qed.

Lemma setpixel_shape b x y v b' : setpixel b x y v = Ok b' -> same_shape b b'.
Proof.
  unfold setpixel. destruct (in_bounds b x y); [|discriminate].
  destruct ((0 <=? v) && (v <? 2 ^ bits_per_value b)); [|discriminate].
  intros [= <-]. unfold same_shape; cbn. rewrite length_insert. auto.
Qed.

Lemma Bitmap_new_spec w h n :
  0 <= w -> 0 <= h -> 1 <= n <= 65536 ->
  exists b, Bitmap_new w h n = Ok b /\ width b = w /\ height b = h /\
    bits_per_value b = bits_for n /\ grid_ok b /\
    forall X Y, in_bounds b X Y = true -> getpixel b X Y = Ok 0.
Proof.
  intros Hw Hh Hn. unfold Bitmap_new.
  replace ((w <? 0) || (h <? 0) || (n <? 1) || (65536 <? n)) with false by lia.
  eexists; split; [reflexivity|]. cbn.
  assert (Hok : grid_ok {| width := w; height := h;
                           bits_per_value := bits_for n;
                           data := repeat 0 (Z.to_nat (w * h)) |}).
  { unfold grid_ok; cbn. rewrite repeat_length. auto. }
  repeat split; try (apply Hok). 
  intros X Y Hin. destruct (getpixel_in_bounds _ X Y Hok Hin) as [v Hv].
  rewrite Hv. apply getpixel_elem in Hv. cbn in Hv.
  apply repeat_spec in Hv. congruence.
Qed.

Lemma bits_for_enough n : n <= 65536 -> n <= 2 ^ bits_for n.
Proof.
  intros Hn. unfold bits_for.
  repeat match goal with
         | |- context [if ?c then _ else _] => destruct c eqn:?
         end; cbn; lia.
Qed.

(** ** Loops over a range *)

Lemma range_nonpos n : n <= 0 -> range n = [].
Proof. intros Hn. unfold range. replace (Z.to_nat n) with O by lia. reflexivity. Qed.

Lemma for_each_from_inv {S : Type} (body : Z -> S -> result S)
    (I : Z -> S -> Prop) (k a : nat) (s : S) :
  I (Z.of_nat a) s ->
  (forall i s, Z.of_nat a <= i < Z.of_nat (a + k) -> I i s ->
     exists s', body i s = Ok s' /\ I (i + 1) s') ->
  exists s', for_each (map Z.of_nat (seq a k)) body s = Ok s' /\
             I (Z.of_nat (a + k)) s'.
Proof.
  revert a s. induction k as [|k IH]; intros a s H0 Hstep; cbn.
  - exists s. rewrite Nat.add_0_r. auto.
  - destruct (Hstep (Z.of_nat a) s) as (s1 & Hb & H1); [lia|assumption|].
    rewrite Hb.
    destruct (IH (Datatypes.S a) s1) as (s2 & Hf & H2).
    + replace (Z.of_nat (Datatypes.S a)) with (Z.of_nat a + 1) by lia. exact H1.
    + intros i s' Hi. apply Hstep. lia.
    + exists s2. split; [exact Hf|].
      replace (a + Datatypes.S k)%nat with (Datatypes.S a + k)%nat by lia.
      exact H2.
Qed.

(** Invariant rule for [for i in range(n)]: the body never raises
    under the invariant, so the loop completes and the invariant holds
    at [n]. *)
Lemma for_each_range_inv {S : Type} (n : Z) (body : Z -> S -> result S)
    (I : Z -> S -> Prop) (s : S) :
  0 <= n -> I 0 s ->
  (forall i s, 0 <= i < n -> I i s -> exists s', body i s = Ok s' /\ I (i + 1) s') ->
  exists s', for_each (range n) body s = Ok s' /\ I n s'.
Proof.
  intros Hn H0 Hstep. unfold range.
  destruct (for_each_from_inv body I (Z.to_nat n) 0 s) as (s' & Hf & Hs').
  - exact H0.
  - intros i s1 Hi. apply Hstep. lia.
  - exists s'. split; [exact Hf|].
    replace (Z.of_nat (0 + Z.to_nat n)) with n in Hs' by lia. exact Hs'.
Qed.

(** Whatever the body, a loop whose body keeps a relation to the
    starting state keeps it. *)
Lemma for_each_preserves {S : Type} (R : S -> S -> Prop) items
    (body : Z -> S -> result S) :
  (forall s, R s s) ->
  (forall s1 s2 s3, R s1 s2 -> R s2 s3 -> R s1 s3) ->
  (forall i s s', body i s = Ok s' -> R s s') ->
  forall s s', for_each items body s = Ok s' -> R s s'.
Proof.
  intros Hrefl Htrans Hbody.
  induction items as [|i rest IH]; intros s s'; cbn.
  - intros [= <-]. apply Hrefl.
  - destruct (body i s) as [s1|e] eqn:Hb; [|discriminate].
    intros Hf. eapply Htrans; [eapply Hbody; eassumption|]. apply IH, Hf.
Qed.

(** ** The 2x2 block copy *)

Lemma scale_frames_tiles image_bit original_frames scaled_bitmap :
  scale_frames image_bit original_frames scaled_bitmap =
  for_each (range original_frames)
    (fun frame d => scale_tile image_bit (frame * 32) (frame * 64) d)
    scaled_bitmap.
Proof. reflexivity. Qed.

Lemma scale_bitmap_2x_tile source_bitmap source_palette :
  scale_bitmap_2x source_bitmap source_palette =
  let? scaled_bitmap := Bitmap_new 64 64 (len source_palette) in
  scale_tile source_bitmap 0 0 scaled_bitmap.
Proof. reflexivity. Qed.

Lemma put_block_shape src sx dx y x d d' :
  put_block src sx dx y x d = Ok d' -> same_shape d d'.
Proof.
  unfold put_block, rbind.
  destruct (getpixel src (sx + x) y) as [v|]; [|discriminate].
  destruct (setpixel d _ _ v) as [d1|] eqn:H1; [|discriminate].
  destruct (setpixel d1 _ _ v) as [d2|] eqn:H2; [|discriminate].
  destruct (setpixel d2 _ _ v) as [d3|] eqn:H3; [|discriminate].
  destruct (setpixel d3 _ _ v) as [d4|] eqn:H4; [|discriminate].
  intros [= <-].
  apply setpixel_shape in H1, H2, H3, H4.
  eauto using same_shape_trans.
Qed.

Lemma scale_tile_shape src sx dx d d' :
  scale_tile src sx dx d = Ok d' -> same_shape d d'.
Proof.
  unfold scale_tile.
  apply for_each_preserves;
    [apply same_shape_refl | apply same_shape_trans |].
  intros y s s'.
  apply for_each_preserves;
    [apply same_shape_refl | apply same_shape_trans |].
  intros x t t'. apply put_block_shape.
Qed.

Lemma scale_frames_shape image_bit original_frames d d' :
  scale_frames image_bit original_frames d = Ok d' -> same_shape d d'.
Proof.
  rewrite scale_frames_tiles.
  apply for_each_preserves;
    [apply same_shape_refl | apply same_shape_trans |].
  intros f s s'. apply scale_tile_shape.
Qed.

Lemma pair_neq (a b c d : Z) : (a, b) <> (c, d) -> a <> c \/ b <> d.
Proof.
  intros Hne. destruct (Z.eq_dec a c) as [->|]; [|auto].
  right. intros ->. apply Hne. reflexivity.
Qed.

Lemma put_block_spec src sx dx y x d :
  grid_ok src -> in_bounds src (sx + x) y = true ->
  grid_ok d -> values_fit src d ->
  0 <= dx + x * 2 -> dx + x * 2 + 1 < width d ->
  0 <= y -> y * 2 + 1 < height d ->
  exists d' v, put_block src sx dx y x d = Ok d' /\
    getpixel src (sx + x) y = Ok v /\ same_shape d d' /\
    forall X Y, getpixel d' X Y =
                if in_block dx x y X Y then Ok v else getpixel d X Y.
Proof.
  intros Hsrc Hin Hd Hfit Hx0 Hx1 Hy0 Hy1.
  destruct (getpixel_in_bounds src _ _ Hsrc Hin) as [v Hv].
  pose proof (Hfit v (getpixel_elem _ _ _ _ Hv)) as Hvv.
  unfold put_block. rewrite Hv. cbn [rbind].
  destruct (setpixel_spec d (dx + x * 2) (y * 2) v) as (d1 & E1 & S1 & G1 & O1);
    [assumption | apply in_bounds_true; lia | assumption |].
  rewrite E1. cbn [rbind].
  pose proof (same_shape_grid_ok _ _ S1 Hd) as Hd1.
  destruct S1 as (W1 & H1 & B1 & L1).
  destruct (setpixel_spec d1 (dx + x * 2 + 1) (y * 2) v) as (d2 & E2 & S2 & G2 & O2);
    [assumption | apply in_bounds_true; lia | rewrite B1; exact Hvv |].
  rewrite E2. cbn [rbind].
  pose proof (same_shape_grid_ok _ _ S2 Hd1) as Hd2.
  destruct S2 as (W2 & H2 & B2 & L2).
  destruct (setpixel_spec d2 (dx + x * 2) (y * 2 + 1) v) as (d3 & E3 & S3 & G3 & O3);
    [assumption | apply in_bounds_true; lia | rewrite B2, B1; exact Hvv |].
  rewrite E3. cbn [rbind].
  pose proof (same_shape_grid_ok _ _ S3 Hd2) as Hd3.
  destruct S3 as (W3 & H3 & B3 & L3).
  destruct (setpixel_spec d3 (dx + x * 2 + 1) (y * 2 + 1) v) as (d4 & E4 & S4 & G4 & O4);
    [assumption | apply in_bounds_true; lia | rewrite B3, B2, B1; exact Hvv |].
  rewrite E4. cbn [rbind].
  destruct S4 as (W4 & H4 & B4 & L4).
  exists d4, v. split; [reflexivity|]. split; [reflexivity|].
  split; [unfold same_shape; repeat split; congruence|].
  intros X Y.
  destruct (decide ((X, Y) = (dx + x * 2 + 1, y * 2 + 1))) as [[= -> ->]|N4].
  { rewrite G4. replace (in_block _ _ _ _ _) with true by (unfold in_block; lia).
    reflexivity. }
  rewrite (O4 _ _ N4).
  destruct (decide ((X, Y) = (dx + x * 2, y * 2 + 1))) as [[= -> ->]|N3].
  { rewrite G3. replace (in_block _ _ _ _ _) with true by (unfold in_block; lia).
    reflexivity. }
  rewrite (O3 _ _ N3).
  destruct (decide ((X, Y) = (dx + x * 2 + 1, y * 2))) as [[= -> ->]|N2].
  { rewrite G2. replace (in_block _ _ _ _ _) with true by (unfold in_block; lia).
    reflexivity. }
  rewrite (O2 _ _ N2).
  destruct (decide ((X, Y) = (dx + x * 2, y * 2))) as [[= -> ->]|N1].
  { rewrite G1. replace (in_block _ _ _ _ _) with true by (unfold in_block; lia).
    reflexivity. }
  rewrite (O1 _ _ N1).
  apply pair_neq in N1, N2, N3, N4.
  replace (in_block _ _ _ _ _) with false by (unfold in_block; lia).
  reflexivity.
Qed.

Lemma scale_row_spec src sx dx y d :
  grid_ok src -> 0 <= sx -> sx + 32 <= width src -> 0 <= y < height src ->
  grid_ok d -> values_fit src d ->
  0 <= dx -> dx + 64 <= width d -> y * 2 + 1 < height d ->
  exists d', for_each (range 32) (fun x d => put_block src sx dx y x d) d = Ok d' /\
             painted src sx dx (in_row dx 32 y) d d'.
Proof.
  intros Hsrc Hsx0 Hsx1 Hy Hd Hfit Hdx0 Hdx1 Hy1.
  apply (for_each_range_inv 32 _ (fun x d' => painted src sx dx (in_row dx x y) d d'));
    [lia | |].
  - split; [apply same_shape_refl|]. intros X Y.
    replace (in_row dx 0 y X Y) with false by (unfold in_row; lia). reflexivity.
  - intros x d1 Hx [Hs Hp].
    pose proof (same_shape_grid_ok _ _ Hs Hd) as Hd1.
    destruct (put_block_spec src sx dx y x d1) as (d2 & v & E & Hv & S2 & G);
      try assumption; try lia.
    + apply in_bounds_true; lia.
    + intros u Hu. destruct Hs as (_ & _ & -> & _). auto.
    + destruct Hs as (-> & _). lia.
    + destruct Hs as (_ & -> & _). lia.
    + exists d2. split; [exact E|]. split; [eauto using same_shape_trans|].
      intros X Y. rewrite G, Hp.
      destruct (in_block dx x y X Y) eqn:Eb.
      * replace (in_row dx (x + 1) y X Y) with true
          by (unfold in_block, in_row in Eb |- *; lia).
        rewrite <- Hv. unfold in_block in Eb. f_equal; div_lia.
      * destruct (in_row dx x y X Y) eqn:Er.
        -- replace (in_row dx (x + 1) y X Y) with true
             by (unfold in_row in Er |- *; lia).
           f_equal; div_lia.
        -- replace (in_row dx (x + 1) y X Y) with false
             by (unfold in_block, in_row in Eb, Er |- *; lia).
           reflexivity.
Qed.

(** One tile of the destination is overwritten with the doubled source
    tile; nothing else is written. *)
Lemma scale_tile_spec src sx dx d :
  grid_ok src -> 0 <= sx -> sx + 32 <= width src -> 32 <= height src ->
  grid_ok d -> values_fit src d ->
  0 <= dx -> dx + 64 <= width d -> 64 <= height d ->
  exists d', scale_tile src sx dx d = Ok d' /\
             painted src sx dx (in_rows dx 32) d d'.
Proof.
  intros Hsrc Hsx0 Hsx1 Hh Hd Hfit Hdx0 Hdx1 Hdh. unfold scale_tile.
  apply (for_each_range_inv 32 _ (fun y d' => painted src sx dx (in_rows dx y) d d'));
    [lia | |].
  - split; [apply same_shape_refl|]. intros X Y.
    replace (in_rows dx 0 X Y) with false by (unfold in_rows; lia). reflexivity.
  - intros y d1 Hy [Hs Hp].
    pose proof (same_shape_grid_ok _ _ Hs Hd) as Hd1.
    destruct (scale_row_spec src sx dx y d1) as (d2 & E & S2 & G);
      try assumption; try lia.
    + intros u Hu. destruct Hs as (_ & _ & -> & _). auto.
    + destruct Hs as (-> & _). lia.
    + destruct Hs as (_ & -> & _). lia.
    + exists d2. split; [exact E|]. split; [eauto using same_shape_trans|].
      intros X Y. rewrite G, Hp.
      destruct (in_row dx 32 y X Y) eqn:Er.
      * replace (in_rows dx (y + 1) X Y) with true
          by (unfold in_rows, in_row in Er |- *; lia).
        reflexivity.
      * destruct (in_rows dx y X Y) eqn:Ey.
        -- replace (in_rows dx (y + 1) X Y) with true
             by (unfold in_rows in Ey |- *; lia).
           reflexivity.
        -- replace (in_rows dx (y + 1) X Y) with false
             by (unfold in_rows, in_row in Er, Ey |- *; lia).
           reflexivity.
Qed.

(** The frame loop doubles every frame of the strip into its own tile
    of the destination. *)
Lemma scale_frames_spec src F d :
  grid_ok src -> 0 <= F -> width src = F * 32 -> height src = 32 ->
  grid_ok d -> values_fit src d -> width d = F * 64 -> height d = 64 ->
  exists d', scale_frames src F d = Ok d' /\ same_shape d d' /\
    forall X Y, 0 <= X < F * 64 -> 0 <= Y < 64 ->
      getpixel d' X Y = getpixel src (32 * (X / 64) + (X mod 64) / 2) (Y / 2).
Proof.
  intros Hsrc HF Hw Hh Hd Hfit Hdw Hdh. rewrite scale_frames_tiles.
  destruct (for_each_range_inv F
              (fun frame d => scale_tile src (frame * 32) (frame * 64) d)
              (fun f d' => same_shape d d' /\
                 forall X Y, getpixel d' X Y =
                   if in_frames f X Y
                   then getpixel src (32 * (X / 64) + (X mod 64) / 2) (Y / 2)
                   else getpixel d X Y) d) as (d' & E & Hs & Hp); [lia | | |].
  - split; [apply same_shape_refl|]. intros X Y.
    replace (in_frames 0 X Y) with false by (unfold in_frames; lia). reflexivity.
  - intros f d1 Hf [Hs Hp].
    pose proof (same_shape_grid_ok _ _ Hs Hd) as Hd1.
    destruct (scale_tile_spec src (f * 32) (f * 64) d1) as (d2 & E & S2 & G);
      try assumption; try lia.
    + intros u Hu. destruct Hs as (_ & _ & -> & _). auto.
    + destruct Hs as (-> & _). lia.
    + destruct Hs as (_ & -> & _). lia.
    + exists d2. split; [exact E|]. split; [eauto using same_shape_trans|].
      intros X Y. rewrite G, Hp.
      destruct (in_rows (f * 64) 32 X Y) eqn:Er.
      * replace (in_frames (f + 1) X Y) with true
          by (unfold in_frames, in_rows in Er |- *; lia).
        unfold in_rows in Er. f_equal; div_lia.
      * destruct (in_frames f X Y) eqn:Ef.
        -- replace (in_frames (f + 1) X Y) with true
             by (unfold in_frames in Ef |- *; lia).
           reflexivity.
        -- replace (in_frames (f + 1) X Y) with false
             by (unfold in_frames, in_rows in Er, Ef |- *; lia).
           reflexivity.
  - exists d'. split; [exact E|]. split; [exact Hs|].
    intros X Y HX HY. rewrite Hp.
    replace (in_frames F X Y) with true by (unfold in_frames; lia).
    reflexivity.
Qed.

Lemma well_formed_spec b pal :
  well_formed b pal = true ->
  0 < width b /\ 0 < height b /\ grid_ok b /\
  (forall v, In v (data b) -> 0 <= v < len pal) /\ 1 <= len pal <= 65536.
Proof.
  unfold well_formed. rewrite !andb_true_iff.
  intros ((((Hw & Hh) & Hl) & Hv) & Hp).
  assert (Hvs : forall v, In v (data b) -> 0 <= v < len pal).
  { intros v Hin. rewrite forallb_forall in Hv. specialize (Hv v Hin). lia. }
  assert (Hgrid : grid_ok b) by (unfold grid_ok; nia).
  repeat split; try lia; try apply Hgrid; try (apply Hvs; assumption).
  assert (Hin : in_bounds b 0 0 = true) by (apply in_bounds_true; lia).
  destruct (getpixel_in_bounds b 0 0 Hgrid Hin) as [v Hv0].
  apply getpixel_elem, Hvs in Hv0. lia.
Qed.

(** ** Classification of a loaded bitmap *)

(** The legacy branch on a well-formed strip: it prints the scaling
    line and yields the doubled strip. *)
Lemma classify_legacy bitmap_name image_bit image_pal w :
  well_formed image_bit image_pal = true ->
  height image_bit = 32 -> width image_bit mod 32 = 0 ->
  exists scaled,
    classify bitmap_name image_bit image_pal w =
      Done (scaled, 64, 64, width image_bit / 32) (emit (Printed ScalingLine) w) /\
    width scaled = width image_bit / 32 * 64 /\ height scaled = 64 /\
    grid_ok scaled /\
    forall X Y, 0 <= X < width image_bit / 32 * 64 -> 0 <= Y < 64 ->
      getpixel scaled X Y =
      getpixel image_bit (32 * (X / 64) + (X mod 64) / 2) (Y / 2).
Proof.
  intros Hwf Hh Hm.
  destruct (well_formed_spec _ _ Hwf) as (Hw & _ & Hgrid & Hvals & Hpal).
  set (F := width image_bit / 32).
  assert (HF : 0 <= F) by (subst F; div_lia).
  assert (HwF : width image_bit = F * 32) by (subst F; div_lia).
  destruct (Bitmap_new_spec (F * 64) 64 (len image_pal))
    as (d & En & Hdw & Hdh & Hdb & Hdg & _); [lia | lia | lia |].
  destruct (scale_frames_spec image_bit F d) as (d' & Es & Hs & Hp);
    try assumption.
  { intros v Hv. rewrite Hdb. specialize (Hvals v Hv).
    pose proof (bits_for_enough (len image_pal)). lia. }
  exists d'. split.
  - unfold classify. rewrite Hh, Hm. cbn [Z.eqb Pos.eqb negb].
    unfold bind, print, lift, ret. fold F. rewrite En, Es. reflexivity.
  - pose proof (same_shape_grid_ok _ _ Hs Hdg) as Hg'.
    destruct Hs as (Hw' & Hh' & _ & _).
    split; [congruence|]. split; [congruence|]. split; [exact Hg'|exact Hp].
Qed.

(** The target branch: the loaded bitmap is used as it is. *)
Lemma classify_target bitmap_name image_bit image_pal w :
  height image_bit = 64 -> width image_bit mod 64 = 0 ->
  classify bitmap_name image_bit image_pal w =
    Done (image_bit, 64, 64, width image_bit / 64) (emit (Printed FullScreenLine) w).
Proof.
  intros Hh Hm. unfold classify. rewrite Hh, Hm. reflexivity.
Qed.

(** C1. For a well-formed legacy strip (height 32, width a multiple of
    32) of [F = width / 32] frames, the scaling step yields a bitmap of
    width [F * 64] and height 64 in which the four pixels of the 2x2
    block at [(f*64 + 2x, 2y)] all hold the source pixel at
    [(f*32 + x, y)], for every frame [f] and every [(x, y)] of its tile;
    and every pixel of the result is one of these copies, so nothing
    else has been written. *)
Theorem legacy_scaling_replicates_blocks bitmap_name image_bit image_pal w :
  well_formed image_bit image_pal = true ->
  height image_bit = 32 -> width image_bit mod 32 = 0 ->
  exists scaled,
    classify bitmap_name image_bit image_pal w =
      Done (scaled, 64, 64, width image_bit / 32) (emit (Printed ScalingLine) w) /\
    width scaled = width image_bit / 32 * 64 /\ height scaled = 64 /\
    (forall f x y, 0 <= f < width image_bit / 32 -> 0 <= x < 32 -> 0 <= y < 32 ->
       exists v, getpixel image_bit (f * 32 + x) y = Ok v /\
         getpixel scaled (f * 64 + 2 * x) (2 * y) = Ok v /\
         getpixel scaled (f * 64 + 2 * x + 1) (2 * y) = Ok v /\
         getpixel scaled (f * 64 + 2 * x) (2 * y + 1) = Ok v /\
         getpixel scaled (f * 64 + 2 * x + 1) (2 * y + 1) = Ok v) /\
    (forall X Y, 0 <= X < width scaled -> 0 <= Y < height scaled ->
       getpixel scaled X Y =
       getpixel image_bit (32 * (X / 64) + (X mod 64) / 2) (Y / 2)).
Proof.
  intros Hwf Hh Hm.
  destruct (classify_legacy bitmap_name image_bit image_pal w Hwf Hh Hm)
    as (scaled & Ec & Hw & Hsh & Hg & Hp).
  destruct (well_formed_spec _ _ Hwf) as (Hw0 & _ & Hgrid & _ & _).
  exists scaled. repeat split; try assumption.
  - intros f x y Hf Hx Hy.
    assert (Hin : in_bounds image_bit (f * 32 + x) y = true)
      by (apply in_bounds_true; div_lia).
    destruct (getpixel_in_bounds _ _ _ Hgrid Hin) as [v Hv].
    exists v. split; [exact Hv|].
    rewrite <- Hv.
    repeat split; (rewrite Hp; [f_equal; div_lia | div_lia | div_lia]).
  - intros X Y HX HY. apply Hp; lia.
Qed.

(** ** What can be raised while classifying *)

Lemma for_each_err {S : Type} (P : exn -> Prop) items
    (body : Z -> S -> result S) :
  (forall i s e, body i s = Err e -> P e) ->
  forall s e, for_each items body s = Err e -> P e.
Proof.
  intros Hbody. induction items as [|i rest IH]; intros s e; cbn.
  - discriminate.
  - destruct (body i s) as [s1|e1] eqn:Hb.
    + apply IH.
    + intros [= <-]. eapply Hbody, Hb.
Qed.

Lemma getpixel_err b x y e : getpixel b x y = Err e -> e = IndexError.
Proof.
  unfold getpixel. destruct (in_bounds b x y).
  - destruct (data b !! offset b x y); [discriminate|]. congruence.
  - congruence.
Qed.

Lemma setpixel_err b x y v e : setpixel b x y v = Err e -> scaler_error e.
Proof.
  unfold setpixel, scaler_error. destruct (in_bounds b x y).
  - destruct ((0 <=? v) && (v <? 2 ^ bits_per_value b)); [discriminate|].
    intros [= <-]. auto.
  - intros [= <-]. auto.
Qed.

Lemma put_block_err src sx dx y x d e :
  put_block src sx dx y x d = Err e -> scaler_error e.
Proof.
  unfold put_block, rbind.
  destruct (getpixel src (sx + x) y) as [v|e0] eqn:Hg.
  2:{ intros [= <-]. left. eapply getpixel_err, Hg. }
  destruct (setpixel d _ _ v) as [d1|] eqn:H1.
  2:{ intros [= <-]. eapply setpixel_err, H1. }
  destruct (setpixel d1 _ _ v) as [d2|] eqn:H2.
  2:{ intros [= <-]. eapply setpixel_err, H2. }
  destruct (setpixel d2 _ _ v) as [d3|] eqn:H3.
  2:{ intros [= <-]. eapply setpixel_err, H3. }
  destruct (setpixel d3 _ _ v) as [d4|] eqn:H4.
  2:{ intros [= <-]. eapply setpixel_err, H4. }
  discriminate.
Qed.

Lemma scale_frames_err image_bit original_frames d e :
  scale_frames image_bit original_frames d = Err e -> scaler_error e.
Proof.
  rewrite scale_frames_tiles. apply for_each_err. intros f s e1.
  unfold scale_tile. apply for_each_err. intros y s1 e2.
  apply for_each_err. intros x s2 e3. apply put_block_err.
Qed.

Lemma Bitmap_new_err w h n e :
  Bitmap_new w h n = Err e -> e = ValueError BadBitmapArguments.
Proof.
  unfold Bitmap_new.
  destruct ((w <? 0) || (h <? 0) || (n <? 1) || (65536 <? n)); congruence.
Qed.

Lemma Bitmap_new_shape w h n b :
  Bitmap_new w h n = Ok b -> width b = w /\ height b = h.
Proof.
  unfold Bitmap_new.
  destruct ((w <? 0) || (h <? 0) || (n <? 1) || (65536 <? n)); [discriminate|].
  intros [= <-]. auto.
Qed.

(** How [classify] can raise: by one of its three geometry checks,
    before anything is printed, or inside the scaler after the scaling
    line. *)
Lemma classify_raised bitmap_name image_bit image_pal w e w' :
  classify bitmap_name image_bit image_pal w = Raised e w' ->
  (unsupported_geometry image_bit = true /\ is_geometry_error e = true /\ w' = w) \/
  (unsupported_geometry image_bit = false /\ is_geometry_error e = false /\
   w' = emit (Printed ScalingLine) w).
Proof.
  unfold classify, unsupported_geometry.
  destruct (height image_bit =? 32) eqn:H32.
  - replace (height image_bit =? 64) with false by lia.
    destruct (negb (width image_bit mod 32 =? 0)) eqn:Hm.
    + intros [= <- <-]. left. cbn. auto.
    + unfold bind, print, lift, ret.
      destruct (Bitmap_new _ _ _) as [d|e0] eqn:En.
      * destruct (scale_frames _ _ d) as [d'|e1] eqn:Es; [discriminate|].
        intros [= <- <-]. right. cbn. split; [reflexivity|]. split; [|reflexivity].
        destruct (scale_frames_err _ _ _ _ Es) as [-> | ->]; reflexivity.
      * intros [= <- <-]. right. cbn. split; [reflexivity|]. split; [|reflexivity].
        rewrite (Bitmap_new_err _ _ _ _ En). reflexivity.
  - destruct (height image_bit =? 64) eqn:H64.
    + destruct (negb (width image_bit mod 64 =? 0)) eqn:Hm.
      * intros [= <- <-]. left. cbn. auto.
      * discriminate.
    + intros [= <- <-]. left. cbn. auto.
Qed.

(** When [classify] succeeds, the tiles are 64x64, the bitmap holds
    exactly [total_frames] of them, and one line that does not name the
    clip has been printed. *)
Lemma classify_done bitmap_name image_bit image_pal w fb fw fh total w' :
  classify bitmap_name image_bit image_pal w = Done (fb, fw, fh, total) w' ->
  fw = 64 /\ fh = 64 /\ height fb = 64 /\ width fb / 64 = total /\
  unsupported_geometry image_bit = false /\
  (w' = emit (Printed ScalingLine) w \/ w' = emit (Printed FullScreenLine) w).
Proof.
  unfold classify, unsupported_geometry.
  destruct (height image_bit =? 32) eqn:H32.
  - replace (height image_bit =? 64) with false by lia.
    destruct (negb (width image_bit mod 32 =? 0)) eqn:Hm; [discriminate|].
    unfold bind, print, lift, ret.
    destruct (Bitmap_new _ _ _) as [d|e0] eqn:En; [|discriminate].
    destruct (scale_frames _ _ d) as [d'|e1] eqn:Es; [|discriminate].
    intros [= <- <- <- <- <-].
    apply scale_frames_shape in Es. destruct Es as (Hw' & Hh' & _).
    apply Bitmap_new_shape in En. destruct En as [Hdw Hdh].
    repeat split; auto; try congruence.
    rewrite Hw', Hdw. apply Z_div_mult. lia.
  - destruct (height image_bit =? 64) eqn:H64; [|discriminate].
    destruct (negb (width image_bit mod 64 =? 0)) eqn:Hm; [discriminate|].
    unfold bind, print, ret. intros [= <- <- <- <- <-].
    repeat split; auto. lia.
Qed.

(** The frame count [classify] reports is the width over the tile
    width of the class the bitmap falls in. *)
Lemma classify_done_frames bitmap_name image_bit image_pal w fb fw fh total w' :
  classify bitmap_name image_bit image_pal w = Done (fb, fw, fh, total) w' ->
  (height image_bit = 32 /\ width image_bit mod 32 = 0 /\
   total = width image_bit / 32) \/
  (height image_bit = 64 /\ width image_bit mod 64 = 0 /\
   total = width image_bit / 64 /\ fb = image_bit).
Proof.
  unfold classify.
  destruct (height image_bit =? 32) eqn:H32.
  - destruct (width image_bit mod 32 =? 0) eqn:Hm; [|discriminate]. cbn [negb].
    unfold bind, print, lift, ret.
    destruct (Bitmap_new _ _ _) as [d|e0]; [|discriminate].
    destruct (scale_frames _ _ d) as [d'|e1]; [|discriminate].
    intros [= <- <- <- <- <-]. left. lia.
  - destruct (height image_bit =? 64) eqn:H64; [|discriminate].
    destruct (width image_bit mod 64 =? 0) eqn:Hm; [|discriminate]. cbn [negb].
    unfold bind, print, ret. intros [= <- <- <- <- <-]. right.
    repeat split; lia.
Qed.

(** ** The transition *)

Lemma pop_all_nil members : pop_all members = [].
Proof. induction members as [|g rest IH]; [reflexivity|exact IH]. Qed.

Lemma range_length n : length (range n) = Z.to_nat n.
Proof. unfold range. rewrite length_map, length_seq. reflexivity. Qed.

Lemma sleep_each_spec items w :
  0 <= animation_speed ->
  sleep_each items w =
    Done tt {| now := now w + Z.of_nat (length items) * animation_speed;
               group := group w;
               trace := trace w ++ repeat (Slept animation_speed) (length items) |}.
Proof.
  intros Hs. revert w. induction items as [|i rest IH]; intros w.
  - cbn. unfold ret. destruct w as [t g tr]; cbn.
    rewrite Z.add_0_r, app_nil_r. reflexivity.
  - cbn [sleep_each]. unfold bind, sleep.
    replace (animation_speed <? 0) with false by lia.
    rewrite IH. cbn [now group trace length repeat].
    f_equal. f_equal; [lia|]. rewrite <- app_assoc. reflexivity.
Qed.

Lemma transition_to_black_spec w :
  0 <= animation_speed -> transition_to_black w = Done tt (blanked w).
Proof.
  intros Hs. unfold transition_to_black, bind, clear_group.
  rewrite sleep_each_spec by assumption. cbn [now group trace].
  rewrite range_length, pop_all_nil. reflexivity.
Qed.

(** ** The playback loop *)

Lemma ticks_spec duration :
  0 < animation_speed ->
  (forall k, (k < ticks duration)%nat -> Z.of_nat k * animation_speed < duration) /\
  duration <= Z.of_nat (ticks duration) * animation_speed /\
  (0 < duration -> Z.of_nat (ticks duration) * animation_speed < duration + animation_speed).
Proof.
  intros Hs. unfold ticks.
  set (q := (duration + animation_speed - 1) / animation_speed).
  assert (Hq : animation_speed * q <= duration + animation_speed - 1
               < animation_speed * q + animation_speed).
  { subst q. pose proof (Z.mul_div_le (duration + animation_speed - 1) animation_speed Hs).
    pose proof (Z.mul_succ_div_gt (duration + animation_speed - 1) animation_speed Hs).
    lia. }
  repeat split.
  - intros k Hk. nia.
  - destruct (Z.le_gt_cases 0 q); [rewrite Z2Nat.id by lia; nia|].
    replace (Z.to_nat q) with O by lia. nia.
  - intros Hd. assert (0 <= q) by nia. rewrite Z2Nat.id by lia. nia.
Qed.

Lemma play_loop_unfold n bitmap_name total_frames start_time duration image_grid frame w :
  play_loop n bitmap_name total_frames start_time duration image_grid frame w =
  if now w - start_time <? duration then
    match n with
    | O => OutOfFuel
    | S n' =>
        (image_grid <- image_grid_set image_grid frame ;;
         frame <- lift (pymod (frame + 1) total_frames) ;;
         print (FrameLine bitmap_name frame total_frames) ;;
         sleep animation_speed ;;
         play_loop n' bitmap_name total_frames start_time duration
           image_grid frame) w
    end
  else Done tt w.
Proof.
  destruct n; cbn [play_loop]; unfold bind at 1, monotonic;
    destruct (now w - start_time <? duration); reflexivity.
Qed.

(** From [k] passes after the start, with budget for the [m] passes
    that remain, the loop runs to its end: pass [j] shows frame
    [j mod total_frames], and the clock ends [ticks] cadences after the
    start. *)
Lemma play_loop_run bitmap_name total_frames start_time duration :
  0 < animation_speed -> total_frames <> 0 ->
  forall m k n image_grid w,
    (k + m = ticks duration)%nat -> (m < n)%nat ->
    now w = start_time + Z.of_nat k * animation_speed ->
    group w = [image_grid] ->
    tiles_in_bitmap image_grid = total_frames ->
    exists g,
      play_loop n bitmap_name total_frames start_time duration image_grid
        (Z.of_nat k mod total_frames) w =
      Done tt {| now := start_time + Z.of_nat (ticks duration) * animation_speed;
                 group := [g];
                 trace := trace w ++
                   flat_map (tick_events bitmap_name total_frames)
                     (map Z.of_nat (seq k m)) |} /\
      same_grid image_grid g /\
      (m <> O -> tile g = Z.of_nat (ticks duration - 1) mod total_frames) /\
      (m = O -> g = image_grid).
Proof.
  intros Hs HF.
  destruct (ticks_spec duration Hs) as (Hlt & Hge & _).
  induction m as [|m IH]; intros k n image_grid w Hk Hn Hnow Hgrp Htiles.
  - exists image_grid. rewrite play_loop_unfold.
    replace (now w - start_time <? duration) with false by nia.
    cbn [seq map flat_map]. rewrite app_nil_r.
    replace (ticks duration) with k by lia.
    split; [|split; [unfold same_grid; auto|split; [congruence|auto]]].
    destruct w as [t g tr]; cbn in Hnow, Hgrp |- *. subst. reflexivity.
  - destruct n as [|n]; [lia|].
    rewrite play_loop_unfold.
    assert (Hk' : Z.of_nat k * animation_speed < duration) by (apply Hlt; lia).
    replace (now w - start_time <? duration) with true by lia.
    unfold bind at 1, image_grid_set, settile.
    unfold bind at 1, lift, pymod.
    replace (total_frames =? 0) with false by lia.
    unfold bind at 1, print. unfold bind at 1, sleep.
    replace (animation_speed <? 0) with false by lia.
    cbn [emit now group trace]. rewrite Hgrp. cbn [write_through].
    rewrite Z.add_mod_idemp_l by lia.
    replace (Z.of_nat k + 1) with (Z.of_nat (Datatypes.S k)) by lia.
    match goal with
    | |- context [play_loop n _ _ _ _ ?g0 _ ?w0] =>
        destruct (IH (Datatypes.S k) n g0 w0)
          as (g & Hrun & Hsame & Hlast & Hfirst);
          [lia | lia | cbn [now]; lia | reflexivity | exact Htiles |]
    end.
    exists g. split; [|split; [|split]].
    + rewrite Hrun. cbn [trace seq map flat_map tick_events app].
      f_equal. f_equal. rewrite <- !app_assoc. cbn [app].
      replace (Z.of_nat k + 1) with (Z.of_nat (Datatypes.S k)) by lia.
      reflexivity.
    + destruct Hsame as (? & ? & ? & ?). unfold same_grid. auto.
    + intros _. destruct m as [|m'].
      * rewrite (Hfirst eq_refl). cbn [with_tile tile].
        replace (ticks duration - 1)%nat with k by lia. reflexivity.
      * apply Hlast. discriminate.
    + discriminate.
Qed.

(** With no frame in the strip, the first pass writes tile 0 to the
    grid and then raises [ZeroDivisionError], before any line is
    printed. *)
Lemma play_loop_no_frames n bitmap_name start_time duration image_grid w :
  (0 < n)%nat ->
  play_loop n bitmap_name 0 start_time duration image_grid 0 w =
  if now w - start_time <? duration
  then Raised ZeroDivisionError
         {| now := now w;
            group := write_through (with_tile image_grid 0) (group w);
            trace := trace w ++ [Shown 0] |}
  else Done tt w.
Proof.
  intros Hn. rewrite play_loop_unfold.
  destruct (now w - start_time <? duration); [|reflexivity].
  destruct n as [|n]; [lia|]. reflexivity.
Qed.

(** The advance [(frame + 1) % total_frames] cannot raise
    [ZeroDivisionError] unless [total_frames] is zero. *)
Lemma play_loop_no_zero_division n bitmap_name total_frames start_time duration :
  total_frames <> 0 ->
  forall image_grid frame w e w',
    play_loop n bitmap_name total_frames start_time duration image_grid frame w =
      Raised e w' ->
    e <> ZeroDivisionError.
Proof.
  intros HF. induction n as [|n IH]; intros image_grid frame w e w';
    rewrite play_loop_unfold;
    destruct (now w - start_time <? duration); try discriminate.
  unfold bind at 1, image_grid_set, settile.
  unfold bind at 1, lift, pymod.
  replace (total_frames =? 0) with false by lia.
  unfold bind at 1, print. unfold bind at 1, sleep.
  destruct (animation_speed <? 0).
  - intros [= <- _]. discriminate.
  - apply IH.
Qed.

(** ** A whole clip *)

Lemma play_animation_load_error bitmap_name duration w e :
  load (bmp_file_path bitmap_name) = Err e ->
  play_animation bitmap_name duration w = Raised e w.
Proof.
  intros Hl. unfold play_animation. fold (bmp_file_path bitmap_name).
  unfold bind at 1, lift. rewrite Hl. reflexivity.
Qed.

Lemma play_animation_classify_error bitmap_name duration w image_bit image_pal e w' :
  load (bmp_file_path bitmap_name) = Ok (image_bit, image_pal) ->
  classify bitmap_name image_bit image_pal w = Raised e w' ->
  play_animation bitmap_name duration w = Raised e w'.
Proof.
  intros Hl Hc. unfold play_animation. fold (bmp_file_path bitmap_name).
  unfold bind at 1, lift. rewrite Hl. unfold bind at 1. rewrite Hc. reflexivity.
Qed.

(** After a successful classification, [play_animation] installs the
    one grid and enters the loop at frame 0 with the clock just read. *)
Lemma play_animation_classified bitmap_name duration w image_bit image_pal
    fb fw fh total w1 :
  load (bmp_file_path bitmap_name) = Ok (image_bit, image_pal) ->
  classify bitmap_name image_bit image_pal w = Done (fb, fw, fh, total) w1 ->
  play_animation bitmap_name duration w =
  play_loop fuel bitmap_name total (now w1) duration
    {| bitmap := fb; pixel_shader := image_pal;
       tile_width := fw; tile_height := fh; tile := 0 |} 0
    {| now := now w1;
       group := [{| bitmap := fb; pixel_shader := image_pal;
                    tile_width := fw; tile_height := fh; tile := 0 |}];
       trace := trace w1 |}.
Proof.
  intros Hl Hc. unfold play_animation. fold (bmp_file_path bitmap_name).
  unfold bind at 1, lift. rewrite Hl. unfold bind at 1. rewrite Hc.
  unfold bind at 1, clear_group. unfold bind at 1, group_append.
  unfold bind at 1, monotonic. cbn [now group trace].
  rewrite pop_all_nil. reflexivity.
Qed.

(** A classified clip with a frame count other than zero plays to the
    end. *)
Lemma play_animation_plays bitmap_name duration w image_bit image_pal
    fb fw fh total w1 :
  0 < animation_speed -> (ticks duration < fuel)%nat ->
  load (bmp_file_path bitmap_name) = Ok (image_bit, image_pal) ->
  classify bitmap_name image_bit image_pal w = Done (fb, fw, fh, total) w1 ->
  total <> 0 ->
  exists g,
    play_animation bitmap_name duration w =
    Done tt {| now := now w1 + Z.of_nat (ticks duration) * animation_speed;
               group := [g];
               trace := trace w1 ++
                 flat_map (tick_events bitmap_name total)
                   (map Z.of_nat (seq 0 (ticks duration))) |} /\
    bitmap g = fb /\ pixel_shader g = image_pal.
Proof.
  intros Hs Hfuel Hl Hc Ht.
  rewrite (play_animation_classified _ _ _ _ _ _ _ _ _ _ Hl Hc).
  destruct (classify_done _ _ _ _ _ _ _ _ _ Hc) as (-> & -> & Hh & Hw & _ & _).
  match goal with
  | |- context [play_loop fuel _ _ _ _ ?g0 _ ?w0] =>
      destruct (play_loop_run bitmap_name total (now w1) duration Hs Ht
                  (ticks duration) O fuel g0 w0)
        as (g & Hrun & Hsame & _ & _);
        [lia | lia | cbn [now]; lia | reflexivity | |]
  end.
  { unfold tiles_in_bitmap. cbn. rewrite Hh, Hw. change (64 / 64) with 1. lia. }
  exists g. split.
  - rewrite Z.mod_0_l in Hrun by lia. exact Hrun.
  - destruct Hsame as (Hb & Hp & _). cbn in Hb, Hp. auto.
Qed.

(** Every clip either plays to the end or raises before any line that
    names it has been printed; the loop budget is never exhausted. *)
Lemma play_animation_outcome bitmap_name duration w :
  0 < animation_speed -> (ticks duration < fuel)%nat ->
  (exists w', play_animation bitmap_name duration w = Done tt w') \/
  (exists e w' evs, play_animation bitmap_name duration w = Raised e w' /\
     now w' = now w /\ trace w' = trace w ++ evs /\ silent evs).
Proof.
  intros Hs Hfuel.
  destruct (load (bmp_file_path bitmap_name)) as [[image_bit image_pal]|e] eqn:Hl.
  2:{ right. exists e, w, []. rewrite (play_animation_load_error _ _ _ _ Hl).
      rewrite app_nil_r. repeat split; auto.
      exists []. unfold quiet. auto. }
  destruct (classify bitmap_name image_bit image_pal w)
    as [[[[fb fw] fh] total] w1|e w1|] eqn:Hc.
  - destruct (Z.eq_dec total 0) as [Ht|Ht].
    + subst total.
      rewrite (play_animation_classified _ _ _ _ _ _ _ _ _ _ Hl Hc).
      rewrite play_loop_no_frames by lia.
      cbn [now]. destruct (now w1 - now w1 <? duration); [|left; eauto].
      right.
      destruct (classify_done _ _ _ _ _ _ _ _ _ Hc) as (_ & _ & _ & _ & _ & Hw1).
      destruct Hw1 as [-> | ->]; eexists _, _, _;
        (split; [reflexivity|]); cbn [emit now trace];
        (split; [reflexivity|]); rewrite <- app_assoc;
        (split; [reflexivity|]);
        eexists; (split; [|right; reflexivity]); unfold quiet; auto.
    + left.
      destruct (play_animation_plays _ duration _ _ _ _ _ _ _ _ Hs Hfuel Hl Hc Ht)
        as (g & Hrun & _).
      eauto.
  - right. exists e, w1.
    rewrite (play_animation_classify_error _ _ _ _ _ _ _ Hl Hc).
    destruct (classify_raised _ _ _ _ _ _ Hc) as [(_ & _ & ->)|(_ & _ & ->)].
    + exists []. rewrite app_nil_r. repeat split; auto.
      exists []. unfold quiet. auto.
    + exists [Printed ScalingLine]. repeat split; auto.
      exists [Printed ScalingLine]. unfold quiet. auto.
  - exfalso. unfold classify in Hc.
    destruct (height image_bit =? 32).
    + destruct (negb (width image_bit mod 32 =? 0)); [discriminate|].
      unfold bind, print, lift, ret in Hc.
      destruct (Bitmap_new _ _ _); [|discriminate].
      destruct (scale_frames _ _ _); discriminate.
    + destruct (height image_bit =? 64); [|discriminate].
      destruct (negb (width image_bit mod 64 =? 0)); discriminate.
Qed.

(** C4. For a 64-high strip whose width is a multiple of 64 the
    classification hands back the loaded bitmap itself, with no scaling
    pass, and that same bitmap is the one installed in the grid that
    is played; so a strip that comes out of the scaler, presented
    again, is returned unchanged. *)
Theorem target_strip_is_unchanged bitmap_name image_bit image_pal w :
  height image_bit = 64 -> width image_bit mod 64 = 0 ->
  classify bitmap_name image_bit image_pal w =
    Done (image_bit, 64, 64, width image_bit / 64) (emit (Printed FullScreenLine) w) /\
  (load (bmp_file_path bitmap_name) = Ok (image_bit, image_pal) ->
   forall duration,
     play_animation bitmap_name duration w =
     play_loop fuel bitmap_name (width image_bit / 64) (now w) duration
       {| bitmap := image_bit; pixel_shader := image_pal;
          tile_width := 64; tile_height := 64; tile := 0 |} 0
       {| now := now w;
          group := [{| bitmap := image_bit; pixel_shader := image_pal;
                       tile_width := 64; tile_height := 64; tile := 0 |}];
          trace := trace w ++ [Printed FullScreenLine] |}) /\
  (forall src src_pal w0 scaled n w1,
     classify bitmap_name src src_pal w0 = Done (scaled, 64, 64, n) w1 ->
     height src = 32 ->
     classify bitmap_name scaled src_pal w1 =
       Done (scaled, 64, 64, n) (emit (Printed FullScreenLine) w1)).
Proof.
  intros Hh Hm. split; [apply classify_target; assumption|].
  split.
  { intros Hl duration.
    apply (play_animation_classified _ _ _ _ _ _ _ _ _ _ Hl
             (classify_target bitmap_name image_bit image_pal w Hh Hm)). }
  intros src src_pal w0 scaled n w1 Hc Hsrc.
  unfold classify in Hc. rewrite Hsrc in Hc. cbn [Z.eqb Pos.eqb] in Hc.
  destruct (negb (width src mod 32 =? 0)); [discriminate|].
  unfold bind, print, lift, ret in Hc.
  destruct (Bitmap_new (width src / 32 * 64) 64 (len src_pal)) as [d|] eqn:En;
    [|discriminate].
  destruct (scale_frames src (width src / 32) d) as [d'|] eqn:Es; [|discriminate].
  injection Hc as <- <- <-.
  apply scale_frames_shape in Es. destruct Es as (Hw' & Hh' & _).
  unfold Bitmap_new in En.
  destruct ((width src / 32 * 64 <? 0) || (64 <? 0) || (len src_pal <? 1)
            || (65536 <? len src_pal)); [discriminate|].
  injection En as <-. cbn in Hw', Hh'.
  rewrite classify_target; [|assumption|rewrite Hw'; apply Z_mod_mult].
  rewrite Hw', Z_div_mult by lia. reflexivity.
Qed.

(** ** The main loop *)

Lemma clip_iteration_done bitmap_name w w1 :
  0 <= animation_speed ->
  play_animation bitmap_name play_time w = Done tt w1 ->
  clip_iteration bitmap_name w = Done tt (blanked w1).
Proof.
  intros Hs Hp. unfold clip_iteration, try_except.
  unfold bind at 1. rewrite Hp, transition_to_black_spec by assumption.
  reflexivity.
Qed.

Lemma clip_iteration_raised bitmap_name w e w1 :
  0 <= animation_speed ->
  play_animation bitmap_name play_time w = Raised e w1 ->
  clip_iteration bitmap_name w =
    Done tt (blanked (emit (Printed (ErrorLine bitmap_name e)) w1)).
Proof.
  intros Hs Hp. unfold clip_iteration, try_except.
  unfold bind at 1. rewrite Hp. unfold bind, print.
  apply transition_to_black_spec. assumption.
Qed.

Lemma for_each_clip_cons bitmap_name rest w w' :
  clip_iteration bitmap_name w = Done tt w' ->
  for_each_clip (bitmap_name :: rest) w = for_each_clip rest w'.
Proof. intros Hc. cbn [for_each_clip]. unfold bind. rewrite Hc. reflexivity. Qed.

(** C3. The geometry error is raised exactly when the loaded bitmap's
    height is neither 32 nor 64, or it is 32 and the width is not a
    multiple of 32, or it is 64 and the width is not a multiple of 64.
    A bitmap of height 16 always raises it, and the main loop then
    prints the error, blanks the display and goes on with the next
    clip. *)
Theorem geometry_error_iff_unsupported bitmap_name image_bit image_pal w :
  ((exists e w', classify bitmap_name image_bit image_pal w = Raised e w' /\
                 is_geometry_error e = true)
   <-> unsupported_geometry image_bit = true) /\
  (height image_bit = 16 ->
   classify bitmap_name image_bit image_pal w =
     Raised (ValueError (HeightNot32Or64 bitmap_name 16)) w) /\
  (0 <= animation_speed ->
   load (bmp_file_path bitmap_name) = Ok (image_bit, image_pal) ->
   unsupported_geometry image_bit = true ->
   exists e w',
     is_geometry_error e = true /\
     clip_iteration bitmap_name w = Done tt w' /\
     w' = blanked (emit (Printed (ErrorLine bitmap_name e)) w) /\
     forall rest, for_each_clip (bitmap_name :: rest) w = for_each_clip rest w').
Proof.
  assert (Hraise : unsupported_geometry image_bit = true ->
            exists e, classify bitmap_name image_bit image_pal w = Raised e w /\
                      is_geometry_error e = true).
  { unfold unsupported_geometry, classify. intros Hu.
    destruct (height image_bit =? 32) eqn:H32.
    - assert (H64 : (height image_bit =? 64) = false) by lia.
      rewrite H64 in Hu.
      destruct (negb (width image_bit mod 32 =? 0)) eqn:Hm.
      + eexists; split; reflexivity.
      + cbn in Hu. discriminate.
    - destruct (height image_bit =? 64) eqn:H64.
      + destruct (negb (width image_bit mod 64 =? 0)) eqn:Hm.
        * eexists; split; reflexivity.
        * cbn in Hu. discriminate.
      + eexists; split; reflexivity. }
  split; [split|split].
  - intros (e & w' & Hc & He).
    destruct (classify_raised _ _ _ _ _ _ Hc) as [(Hu & _)|(_ & He' & _)];
      [assumption|congruence].
  - intros Hu. destruct (Hraise Hu) as (e & Hc & He). eauto.
  - intros H16. unfold classify. rewrite H16. reflexivity.
  - intros Hs Hl Hu. destruct (Hraise Hu) as (e & Hc & He).
    pose proof (play_animation_classify_error _ play_time _ _ _ _ _ Hl Hc) as Hp.
    pose proof (clip_iteration_raised _ _ _ _ Hs Hp) as Hi.
    exists e, (blanked (emit (Printed (ErrorLine bitmap_name e)) w)).
    repeat split; try assumption.
    intros rest. apply for_each_clip_cons. assumption.
Qed.

(** C7. Whenever validation passes, the reported frame count is
    [width / 32] for a 32-high bitmap and [width / 64] for a 64-high
    one, and every well-formed bitmap of such a geometry is reported;
    a 96x32 bitmap is a legacy strip of 3 frames, scaled to 192x64. *)
Theorem frame_count_is_width_over_tile bitmap_name image_bit image_pal w :
  (forall fb fw fh total w1,
     classify bitmap_name image_bit image_pal w = Done (fb, fw, fh, total) w1 ->
     (height image_bit = 32 /\ total = width image_bit / 32) \/
     (height image_bit = 64 /\ total = width image_bit / 64)) /\
  (well_formed image_bit image_pal = true ->
   (height image_bit = 32 -> width image_bit mod 32 = 0 ->
    exists fb w1, classify bitmap_name image_bit image_pal w =
                  Done (fb, 64, 64, width image_bit / 32) w1) /\
   (height image_bit = 64 -> width image_bit mod 64 = 0 ->
    exists fb w1, classify bitmap_name image_bit image_pal w =
                  Done (fb, 64, 64, width image_bit / 64) w1) /\
   (height image_bit = 32 -> width image_bit = 96 ->
    exists scaled, classify bitmap_name image_bit image_pal w =
                     Done (scaled, 64, 64, 3) (emit (Printed ScalingLine) w) /\
                   width scaled = 192 /\ height scaled = 64)).
Proof.
  split.
  { intros fb fw fh total w1 Hc.
    destruct (classify_done_frames _ _ _ _ _ _ _ _ _ Hc)
      as [(Hh & _ & Ht)|(Hh & _ & Ht & _)]; auto. }
  intros Hwf. split; [|split].
  - intros Hh Hm.
    destruct (classify_legacy bitmap_name _ _ w Hwf Hh Hm) as (scaled & Hc & _).
    eauto.
  - intros Hh Hm. rewrite classify_target by assumption. eauto.
  - intros Hh Hw.
    assert (Hm : width image_bit mod 32 = 0) by (rewrite Hw; reflexivity).
    destruct (classify_legacy bitmap_name _ _ w Hwf Hh Hm)
      as (scaled & Hc & Hsw & Hsh & _).
    rewrite Hw in Hc, Hsw. change (96 / 32) with 3 in Hc, Hsw.
    exists scaled. repeat split; assumption.
Qed.

(** C9. A bitmap of positive width that passes validation is
    classified with at least one frame, so the advance
    [(frame + 1) % total_frames] is defined at every step and the
    playback loop never raises [ZeroDivisionError]; and every
    well-formed bitmap of a supported geometry does pass. *)
Theorem validated_strip_has_a_frame bitmap_name image_bit image_pal w :
  0 < width image_bit ->
  (forall fb fw fh total w1,
     classify bitmap_name image_bit image_pal w = Done (fb, fw, fh, total) w1 ->
     1 <= total /\
     (forall frame, pymod (frame + 1) total = Ok ((frame + 1) mod total)) /\
     (forall n start_time duration image_grid frame w0 e w',
        play_loop n bitmap_name total start_time duration image_grid frame w0 =
          Raised e w' ->
        e <> ZeroDivisionError)) /\
  (well_formed image_bit image_pal = true ->
   (height image_bit = 32 /\ width image_bit mod 32 = 0) \/
   (height image_bit = 64 /\ width image_bit mod 64 = 0) ->
   exists fb total w1,
     classify bitmap_name image_bit image_pal w = Done (fb, 64, 64, total) w1).
Proof.
  intros Hw. split.
  - intros fb fw fh total w1 Hc.
    assert (Ht : 1 <= total).
    { destruct (classify_done_frames _ _ _ _ _ _ _ _ _ Hc)
        as [(_ & Hm & ->)|(_ & Hm & -> & _)]; div_lia. }
    split; [exact Ht|]. split.
    + intros frame. unfold pymod.
      replace (total =? 0) with false by lia. reflexivity.
    + intros n start_time duration image_grid frame w0 e w'.
      apply play_loop_no_zero_division. lia.
  - intros Hwf [[Hh Hm]|[Hh Hm]].
    + destruct (classify_legacy bitmap_name _ _ w Hwf Hh Hm) as (scaled & Hc & _).
      eauto.
    + rewrite classify_target by assumption. eauto.
Qed.

(** ** The standalone helper *)

Lemma scale_bitmap_2x_spec source_bitmap source_palette :
  well_formed source_bitmap source_palette = true ->
  32 <= width source_bitmap -> 32 <= height source_bitmap ->
  exists scaled, scale_bitmap_2x source_bitmap source_palette = Ok scaled /\
    width scaled = 64 /\ height scaled = 64 /\
    forall X Y, 0 <= X < 64 -> 0 <= Y < 64 ->
      getpixel scaled X Y = getpixel source_bitmap (X / 2) (Y / 2).
Proof.
  intros Hwf Hw Hh.
  destruct (well_formed_spec _ _ Hwf) as (_ & _ & Hgrid & Hvals & Hpal).
  rewrite scale_bitmap_2x_tile.
  destruct (Bitmap_new_spec 64 64 (len source_palette))
    as (d & En & Hdw & Hdh & Hdb & Hdg & _); [lia | lia | lia |].
  rewrite En. cbn [rbind].
  destruct (scale_tile_spec source_bitmap 0 0 d) as (d' & Es & Hs & Hp);
    try assumption; try lia.
  { intros v Hv. rewrite Hdb. specialize (Hvals v Hv).
    pose proof (bits_for_enough (len source_palette)). lia. }
  exists d'. split; [exact Es|].
  destruct Hs as (Hw' & Hh' & _).
  split; [congruence|]. split; [congruence|].
  intros X Y HX HY. rewrite Hp.
  replace (in_rows 0 32 X Y) with true by (unfold in_rows; lia).
  f_equal. rewrite Z.sub_0_r. reflexivity.
Qed.

(** C10. On a 32x32 bitmap that equals frame [f] of a legacy strip, the
    helper [scale_bitmap_2x] returns a 64x64 bitmap equal, pixel for
    pixel, to tile [f] of what the inline loop of [play_animation]
    produces for the strip. *)
Theorem helper_agrees_with_inline_loop bitmap_name image_bit image_pal w
    source_bitmap f :
  well_formed image_bit image_pal = true ->
  height image_bit = 32 -> width image_bit mod 32 = 0 ->
  0 <= f < width image_bit / 32 ->
  well_formed source_bitmap image_pal = true ->
  width source_bitmap = 32 -> height source_bitmap = 32 ->
  (forall x y, 0 <= x < 32 -> 0 <= y < 32 ->
     getpixel source_bitmap x y = getpixel image_bit (f * 32 + x) y) ->
  exists tile strip,
    scale_bitmap_2x source_bitmap image_pal = Ok tile /\
    classify bitmap_name image_bit image_pal w =
      Done (strip, 64, 64, width image_bit / 32) (emit (Printed ScalingLine) w) /\
    width tile = 64 /\ height tile = 64 /\
    forall X Y, 0 <= X < 64 -> 0 <= Y < 64 ->
      getpixel tile X Y = getpixel strip (f * 64 + X) Y.
Proof.
  intros Hwf Hh Hm Hf Hwfs Hsw Hsh Heq.
  destruct (scale_bitmap_2x_spec source_bitmap image_pal Hwfs)
    as (tile & Et & Htw & Hth & Htp); [lia | lia |].
  destruct (classify_legacy bitmap_name image_bit image_pal w Hwf Hh Hm)
    as (strip & Ec & _ & _ & _ & Hsp).
  exists tile, strip. repeat split; try assumption.
  intros X Y HX HY.
  rewrite Htp, Hsp, Heq by div_lia.
  f_equal; div_lia.
Qed.

(** ** Frames shown during playback *)

Lemma shown_app evs evs' : shown (evs ++ evs') = shown evs ++ shown evs'.
Proof.
  induction evs as [|ev rest IH]; [reflexivity|].
  destruct ev; cbn; rewrite IH; reflexivity.
Qed.

Lemma shown_ticks bitmap_name total ks :
  shown (flat_map (tick_events bitmap_name total) ks) =
  map (fun k => k mod total) ks.
Proof.
  induction ks as [|k rest IH]; [reflexivity|].
  cbn. rewrite IH. reflexivity.
Qed.

Lemma ticks_in_range bitmap_name total ks :
  1 <= total ->
  Forall (frame_in_range total) (flat_map (tick_events bitmap_name total) ks).
Proof.
  intros Ht. induction ks as [|k rest IH]; [constructor|].
  cbn [flat_map tick_events app].
  repeat constructor; try assumption; cbn; apply Z.mod_pos_bound; lia.
Qed.

(** C5. Entered as [play_animation] enters it (frame 0, the clock just
    read, the grid of [total_frames >= 1] tiles in the group), the
    playback loop shows frame [k mod total_frames] on pass [k], for
    every pass it makes: the sequence is 0, 1, ..., F-1, 0, 1, ...;
    every index shown or kept as the current frame lies in
    [[0, total_frames)], and after the last frame the index is 0
    again. *)
Theorem frame_index_cycles bitmap_name total_frames duration image_grid w :
  0 < animation_speed -> 1 <= total_frames -> (ticks duration < fuel)%nat ->
  tiles_in_bitmap image_grid = total_frames -> group w = [image_grid] ->
  exists w',
    play_loop fuel bitmap_name total_frames (now w) duration image_grid 0 w =
      Done tt w' /\
    shown (trace w') =
      shown (trace w) ++
      map (fun k => Z.of_nat k mod total_frames) (seq 0 (ticks duration)) /\
    (forall k, (k < ticks duration)%nat ->
       nth_error (skipn (length (shown (trace w))) (shown (trace w'))) k =
         Some (Z.of_nat k mod total_frames) /\
       0 <= Z.of_nat k mod total_frames < total_frames) /\
    (exists evs, trace w' = trace w ++ evs /\
                 Forall (frame_in_range total_frames) evs) /\
    (forall k, k mod total_frames = total_frames - 1 ->
               (k + 1) mod total_frames = 0).
Proof.
  intros Hs HF Hfuel Htiles Hgrp.
  destruct (play_loop_run bitmap_name total_frames (now w) duration Hs
              ltac:(lia)
              (ticks duration) O fuel image_grid w)
    as (g & Hrun & _); [lia | lia | lia | assumption | assumption |].
  rewrite Z.mod_0_l in Hrun by lia.
  eexists. split; [exact Hrun|]. cbn [trace].
  assert (Hshown : shown (trace w ++
                     flat_map (tick_events bitmap_name total_frames)
                       (map Z.of_nat (seq 0 (ticks duration)))) =
                   shown (trace w) ++
                   map (fun k => Z.of_nat k mod total_frames)
                     (seq 0 (ticks duration))).
  { rewrite shown_app, shown_ticks, map_map. reflexivity. }
  split; [exact Hshown|]. split; [|split].
  - intros k Hk. split; [|apply Z.mod_pos_bound; lia].
    rewrite Hshown, skipn_app, skipn_all, Nat.sub_diag. cbn [app].
    rewrite skipn_O, nth_error_map, nth_error_seq.
    destruct (Nat.ltb_spec k (ticks duration)); [reflexivity|lia].
  - eexists. split; [reflexivity|]. apply ticks_in_range. assumption.
  - intros k Hk. rewrite <- Z.add_mod_idemp_l, Hk by lia.
    replace (total_frames - 1 + 1) with total_frames by lia.
    apply Z.mod_same. lia.
Qed.


Lemma range_split n k :
  0 <= k < n ->
  range n = range k ++ k :: map Z.of_nat (seq (S (Z.to_nat k)) (Z.to_nat (n - k - 1))).
Proof.
  intros Hk. unfold range.
  replace (Z.to_nat n) with (Z.to_nat k + S (Z.to_nat (n - k - 1)))%nat by lia.
  rewrite seq_app, map_app. cbn [seq map Nat.add].
  rewrite Z2Nat.id by lia. reflexivity.
Qed.

Lemma transition_raises_on_negative_speed w :
  animation_speed < 0 -> 0 < transition_frames ->
  transition_to_black w =
  Raised (ValueError SleepLengthNegative)
    {| now := now w; group := []; trace := trace w |}.
Proof.
  intros Hs Ht. unfold transition_to_black, bind, clear_group.
  rewrite pop_all_nil, (range_split transition_frames 0) by lia.
  change (range 0) with (@nil Z). cbn [app sleep_each].
  unfold bind, sleep. cbn [now].
  replace (animation_speed <? 0) with true by lia. reflexivity.
Qed.

Lemma sleep_each_keeps_group items w :
  match sleep_each items w with
  | Done _ w' => group w' = group w
  | Raised _ w' => group w' = group w
  | OutOfFuel => False
  end.
Proof.
  revert w. induction items as [|i rest IH]; intros w; [reflexivity|].
  cbn [sleep_each]. unfold bind, sleep.
  destruct (animation_speed <? 0); [reflexivity|].
  specialize (IH {| now := now w + animation_speed; group := group w;
                    trace := trace w ++ [Slept animation_speed] |}).
  destruct (sleep_each rest _); exact IH.
Qed.

(** C8. [transition_to_black] first empties the display group and then
    sleeps [transition_frames] times for [animation_speed], touching no
    bitmap.  The group is empty before the first sleep: every sleep is
    made in a world whose group is empty, and however the transition
    ends, normally or by an error raised by a sleep, the group is
    empty then.  The main loop runs it after a clip that played and,
    after printing the error, after a clip that raised, so the group
    is empty whenever an iteration ends. *)
Theorem transition_blanks_then_waits :
  (forall w,
     transition_to_black w =
     sleep_each (range transition_frames)
       {| now := now w; group := []; trace := trace w |}) /\
  (forall w,
     match transition_to_black w with
     | Done _ w' => group w' = []
     | Raised _ w' => group w' = []
     | OutOfFuel => False
     end) /\
  (animation_speed < 0 -> 0 < transition_frames ->
   forall w,
     transition_to_black w =
     Raised (ValueError SleepLengthNegative)
       {| now := now w; group := []; trace := trace w |}) /\
  (0 <= animation_speed -> 0 <= transition_frames ->
   (forall w, exists w',
      transition_to_black w = Done tt w' /\
      group w' = [] /\
      now w' = now w + transition_frames * animation_speed /\
      trace w' = trace w ++
                 repeat (Slept animation_speed) (Z.to_nat transition_frames)) /\
   (forall bitmap_name w w1,
      play_animation bitmap_name play_time w = Done tt w1 ->
      clip_iteration bitmap_name w = transition_to_black w1) /\
   (forall bitmap_name w e w1,
      play_animation bitmap_name play_time w = Raised e w1 ->
      clip_iteration bitmap_name w =
      transition_to_black (emit (Printed (ErrorLine bitmap_name e)) w1)) /\
   (forall bitmap_name w w',
      clip_iteration bitmap_name w = Done tt w' -> group w' = [])).
Proof.
  assert (Hfirst : forall w,
            transition_to_black w =
            sleep_each (range transition_frames)
              {| now := now w; group := []; trace := trace w |}).
  { intros w. unfold transition_to_black, bind, clear_group.
    rewrite pop_all_nil. reflexivity. }
  split; [exact Hfirst|]. split; [|split].
  - intros w. rewrite Hfirst.
    exact (sleep_each_keeps_group (range transition_frames)
             {| now := now w; group := []; trace := trace w |}).
  - intros Hs Ht w. apply transition_raises_on_negative_speed; assumption.
  - intros Hs Ht. split; [|split; [|split]].
    + intros w. exists (blanked w).
      split; [apply transition_to_black_spec; assumption|].
      unfold blanked; cbn [now group trace]. rewrite Z2Nat.id by assumption. auto.
    + intros bitmap_name w w1 Hp.
      rewrite (clip_iteration_done _ _ _ Hs Hp).
      symmetry. apply transition_to_black_spec. assumption.
    + intros bitmap_name w e w1 Hp.
      rewrite (clip_iteration_raised _ _ _ _ Hs Hp).
      symmetry. apply transition_to_black_spec. assumption.
    + intros bitmap_name w w' Hc.
      destruct (play_animation bitmap_name play_time w) as [[] w1|e w1|] eqn:Hp.
      * rewrite (clip_iteration_done _ _ _ Hs Hp) in Hc.
        injection Hc as <-. reflexivity.
      * rewrite (clip_iteration_raised _ _ _ _ Hs Hp) in Hc.
        injection Hc as <-. reflexivity.
      * unfold clip_iteration, try_except in Hc. unfold bind at 1 in Hc.
        rewrite Hp in Hc. discriminate.
Qed.

(** ** Error isolation *)

Lemma filter_names_quiet bitmap_name evs :
  quiet evs -> List.filter (names_clip bitmap_name) evs = [].
Proof. intros [-> | [-> | ->]]; reflexivity. Qed.

Lemma filter_names_silent bitmap_name evs :
  silent evs -> List.filter (names_clip bitmap_name) evs = [].
Proof.
  intros (q & Hq & [-> | ->]); [apply filter_names_quiet, Hq|].
  rewrite List.filter_app, (filter_names_quiet _ _ Hq). reflexivity.
Qed.

Lemma filter_names_slept bitmap_name seconds n :
  List.filter (names_clip bitmap_name) (repeat (Slept seconds) n) = [].
Proof. induction n as [|n IH]; [reflexivity|exact IH]. Qed.

Lemma for_each_clip_app names names' w :
  for_each_clip (names ++ names') w =
  (for_each_clip names ;; for_each_clip names') w.
Proof.
  revert w. induction names as [|n rest IH]; intros w; [reflexivity|].
  cbn [app for_each_clip]. unfold bind.
  destruct (clip_iteration n w) as [[] w1|e w1|]; try reflexivity.
  rewrite IH. reflexivity.
Qed.

Lemma clip_iteration_total bitmap_name w :
  0 < animation_speed -> (ticks play_time < fuel)%nat ->
  exists w', clip_iteration bitmap_name w = Done tt w'.
Proof.
  intros Hs Hfuel.
  destruct (play_animation_outcome bitmap_name play_time w Hs Hfuel)
    as [(w1 & Hp)|(e & w1 & evs & Hp & _)].
  - rewrite (clip_iteration_done _ _ _ ltac:(lia) Hp). eauto.
  - rewrite (clip_iteration_raised _ _ _ _ ltac:(lia) Hp). eauto.
Qed.

Lemma for_each_clip_total names w :
  0 < animation_speed -> (ticks play_time < fuel)%nat ->
  exists w', for_each_clip names w = Done tt w'.
Proof.
  intros Hs Hfuel. revert w.
  induction names as [|n rest IH]; intros w.
  - exists w. reflexivity.
  - destruct (clip_iteration_total n w Hs Hfuel) as (w1 & Hc).
    rewrite (for_each_clip_cons _ rest _ _ Hc). apply IH.
Qed.

(** C2. Whatever a clip's playback raises, the main loop catches it,
    prints exactly one line naming the clip (the error line), runs the
    transition and goes on with the next clip.  Every iteration and
    every round of the main loop completes without raising, and the
    rounds go through the clip list in its order, again and again. *)
Theorem main_loop_isolates_clip_errors :
  0 < animation_speed -> (ticks play_time < fuel)%nat ->
  (forall bitmap_name w e w1,
     play_animation bitmap_name play_time w = Raised e w1 ->
     exists evs w',
       clip_iteration bitmap_name w = Done tt w' /\
       w' = blanked (emit (Printed (ErrorLine bitmap_name e)) w1) /\
       trace w' = trace w ++ evs /\
       List.filter (names_clip bitmap_name) evs =
         [Printed (ErrorLine bitmap_name e)] /\
       group w' = [] /\
       forall rest,
         for_each_clip (bitmap_name :: rest) w = for_each_clip rest w') /\
  (forall bitmap_name w, exists w', clip_iteration bitmap_name w = Done tt w') /\
  (forall rounds w, exists w', main_loop rounds w = Done tt w') /\
  (forall rounds w,
     main_loop rounds w =
     for_each_clip (concat (repeat bitmap_names rounds)) w).
Proof.
  intros Hs Hfuel. split; [|split; [|split]].
  - intros bitmap_name w e w1 Hp.
    destruct (play_animation_outcome bitmap_name play_time w Hs Hfuel)
      as [(w2 & Hp2)|(e2 & w2 & evs & Hp2 & _ & Htr & Hq)]; [congruence|].
    rewrite Hp in Hp2. injection Hp2 as <- <-.
    pose proof (clip_iteration_raised _ _ _ _ ltac:(lia) Hp) as Hc.
    exists (evs ++ [Printed (ErrorLine bitmap_name e)] ++
            repeat (Slept animation_speed) (Z.to_nat transition_frames)).
    eexists. split; [exact Hc|]. split; [reflexivity|].
    split; [|split; [|split]].
    + unfold blanked, emit; cbn [trace]. rewrite Htr, <- !app_assoc. reflexivity.
    + rewrite !List.filter_app, (filter_names_silent _ _ Hq), filter_names_slept.
      cbn. rewrite String.eqb_refl. reflexivity.
    + reflexivity.
    + intros rest. apply for_each_clip_cons. exact Hc.
  - intros bitmap_name w. apply clip_iteration_total; assumption.
  - intros rounds. induction rounds as [|r IH]; intros w.
    + exists w. reflexivity.
    + cbn [main_loop]. unfold bind.
      destruct (for_each_clip_total bitmap_names w Hs Hfuel) as (w1 & ->).
      apply IH.
  - intros rounds. induction rounds as [|r IH]; intros w; [reflexivity|].
    cbn [main_loop repeat concat]. rewrite for_each_clip_app.
    unfold bind. destruct (for_each_clip bitmap_names w); try reflexivity.
    apply IH.
Qed.


Lemma in_range n i : 0 <= i < n -> In i (range n).
Proof.
  intros Hi. unfold range. apply in_map_iff. exists (Z.to_nat i).
  split; [lia|]. apply in_seq. lia.
Qed.

Lemma tile_matches_spec src img f :
  tile_matches src img f = true ->
  forall x y, 0 <= x < 32 -> 0 <= y < 32 ->
    getpixel src x y = getpixel img (f * 32 + x) y.
Proof.
  unfold tile_matches. intros Hm x y Hx Hy.
  rewrite forallb_forall in Hm. specialize (Hm y (in_range 32 y Hy)).
  rewrite forallb_forall in Hm. specialize (Hm x (in_range 32 x Hx)).
  destruct (getpixel src x y) as [a|]; [|discriminate].
  destruct (getpixel img (f * 32 + x) y) as [b|]; [|discriminate].
  f_equal. lia.
Qed.


(** A bitmap of width zero passes the width check of either class and
    is classified with no frame at all: the positive width asked of a
    strip is what gives it a first frame. *)
Lemma zero_width_passes_with_no_frames bitmap_name image_bit image_pal w :
  height image_bit = 64 -> width image_bit = 0 ->
  classify bitmap_name image_bit image_pal w =
    Done (image_bit, 64, 64, 0) (emit (Printed FullScreenLine) w).
Proof.
  intros Hh Hw. rewrite classify_target; [|assumption|rewrite Hw; reflexivity].
  rewrite Hw. reflexivity.
Qed.


(** * Further properties of the code *)

(** ** The helper on its own *)

(** X1. On a well-formed source of at least 32x32 pixels
    [scale_bitmap_2x] returns a 64x64 bitmap, made for the palette's
    size, whose pixel [(X, Y)] is the source pixel [(X / 2, Y / 2)]: each
    source pixel of the top-left 32x32 square fills its 2x2 block.
    Nothing outside that square is read: a source that agrees with it
    there gives the same pixels. *)
Theorem scale_bitmap_2x_doubles source_bitmap source_palette :
  well_formed source_bitmap source_palette = true ->
  32 <= width source_bitmap -> 32 <= height source_bitmap ->
  exists scaled,
    scale_bitmap_2x source_bitmap source_palette = Ok scaled /\
    width scaled = 64 /\ height scaled = 64 /\
    (forall X Y, 0 <= X < 64 -> 0 <= Y < 64 ->
       getpixel scaled X Y = getpixel source_bitmap (X / 2) (Y / 2)) /\
    (forall x y, 0 <= x < 32 -> 0 <= y < 32 ->
       exists v, getpixel source_bitmap x y = Ok v /\
         getpixel scaled (x * 2) (y * 2) = Ok v /\
         getpixel scaled (x * 2 + 1) (y * 2) = Ok v /\
         getpixel scaled (x * 2) (y * 2 + 1) = Ok v /\
         getpixel scaled (x * 2 + 1) (y * 2 + 1) = Ok v) /\
    (forall other,
       well_formed other source_palette = true ->
       32 <= width other -> 32 <= height other ->
       (forall x y, 0 <= x < 32 -> 0 <= y < 32 ->
          getpixel other x y = getpixel source_bitmap x y) ->
       exists scaled',
         scale_bitmap_2x other source_palette = Ok scaled' /\
         forall X Y, 0 <= X < 64 -> 0 <= Y < 64 ->
           getpixel scaled' X Y = getpixel scaled X Y).
Proof.
  intros Hwf Hw Hh.
  destruct (scale_bitmap_2x_spec source_bitmap source_palette Hwf Hw Hh)
    as (scaled & Es & Hsw & Hsh & Hp).
  destruct (well_formed_spec _ _ Hwf) as (_ & _ & Hgrid & _ & _).
  exists scaled. split; [exact Es|]. split; [exact Hsw|]. split; [exact Hsh|].
  split; [exact Hp|]. split.
  - intros x y Hx Hy.
    assert (Hin : in_bounds source_bitmap x y = true)
      by (apply in_bounds_true; lia).
    destruct (getpixel_in_bounds _ _ _ Hgrid Hin) as [v Hv].
    exists v. split; [exact Hv|]. rewrite <- Hv.
    repeat split; (rewrite Hp; [f_equal; div_lia | lia | lia]).
  - intros other Hwfo Hwo Hho Hagree.
    destruct (scale_bitmap_2x_spec other source_palette Hwfo Hwo Hho)
      as (scaled' & Es' & _ & _ & Hp').
    exists scaled'. split; [exact Es'|].
    intros X Y HX HY. rewrite Hp', Hp by assumption.
    apply Hagree; div_lia.
Qed.

(** ** What the scaler hands to playback *)

(** Every stored value of a bitmap is the value of one of its pixels. *)
Lemma data_elem_pixel b v :
  grid_ok b -> In v (data b) ->
  exists X Y, in_bounds b X Y = true /\ getpixel b X Y = Ok v.
Proof.
  intros (Hw & Hh & Hl) Hin.
  apply list_elem_of_In, list_elem_of_lookup in Hin. destruct Hin as [i Hi].
  pose proof (lookup_lt_Some _ _ _ Hi) as Hlt. rewrite Hl in Hlt.
  assert (Hwpos : 0 < width b) by nia.
  exists (Z.of_nat i mod width b), (Z.of_nat i / width b).
  assert (Hin : in_bounds b (Z.of_nat i mod width b) (Z.of_nat i / width b) = true).
  { apply in_bounds_true.
    pose proof (Z.mod_pos_bound (Z.of_nat i) (width b) Hwpos).
    pose proof (Z.div_pos (Z.of_nat i) (width b) ltac:(lia) Hwpos).
    split; [lia|]. split; [lia|].
    apply Z.div_lt_upper_bound; [lia|]. nia. }
  split; [exact Hin|].
  unfold getpixel. rewrite Hin. unfold offset.
  replace (Z.of_nat i / width b * width b + Z.of_nat i mod width b)
    with (Z.of_nat i)
    by (rewrite (Z.div_mod (Z.of_nat i) (width b)) at 1; lia).
  rewrite Nat2Z.id, Hi. reflexivity.
Qed.

(** A well-formed image that is classified yields a well-formed final
    bitmap with at least one frame. *)
Lemma final_bitmap_ok bitmap_name image_bit image_pal w fb total w1 :
  well_formed image_bit image_pal = true ->
  classify bitmap_name image_bit image_pal w = Done (fb, 64, 64, total) w1 ->
  well_formed fb image_pal = true /\ 1 <= total.
Proof.
  intros Hwf Hc. destruct (well_formed_spec _ _ Hwf) as (Hw0 & _).
  split.
  - destruct (classify_done_frames _ _ _ _ _ _ _ _ _ Hc)
      as [(Hh & Hm & Ht)|(_ & _ & _ & ->)]; [|assumption].
    destruct (classify_legacy bitmap_name _ _ w Hwf Hh Hm)
      as (scaled & Hc' & Hsw & Hsh & Hg & Hp).
    rewrite Hc in Hc'. injection Hc' as -> _.
    destruct (well_formed_spec _ _ Hwf) as (_ & _ & Hgrid & Hvals & Hpal).
    unfold well_formed. rewrite !andb_true_iff.
    pose proof Hg as (_ & _ & Hl).
    repeat split.
    + rewrite Hsw. div_lia.
    + rewrite Hsh. reflexivity.
    + rewrite Hl, Hsw, Hsh. apply Z.eqb_eq. div_lia.
    + apply forallb_forall. intros v Hv.
      destruct (data_elem_pixel _ _ Hg Hv) as (X & Y & Hin & Hget).
      apply in_bounds_true in Hin. rewrite Hp in Hget by lia.
      specialize (Hvals v (getpixel_elem _ _ _ _ Hget)). lia.
    + lia.
  - destruct (classify_done_frames _ _ _ _ _ _ _ _ _ Hc)
      as [(_ & Hm & ->)|(_ & Hm & -> & _)]; div_lia.
Qed.

(** X2. The bitmap [play_animation] hands to playback keeps the
    invariants of the one that was loaded: for a well-formed image,
    whichever class it falls in, the final bitmap has positive
    dimensions, one value per pixel, and only values that index the
    same palette.  The scaler invents no pixel value. *)
Theorem final_bitmap_is_well_formed bitmap_name image_bit image_pal w
    fb fw fh total w' :
  well_formed image_bit image_pal = true ->
  classify bitmap_name image_bit image_pal w = Done (fb, fw, fh, total) w' ->
  well_formed fb image_pal = true /\
  forall v, In v (data fb) -> In v (data image_bit).
Proof.
  intros Hwf Hc.
  destruct (classify_done_frames _ _ _ _ _ _ _ _ _ Hc)
    as [(Hh & Hm & Ht)|(_ & _ & _ & ->)]; [|auto].
  destruct (classify_legacy bitmap_name _ _ w Hwf Hh Hm)
    as (scaled & Hc' & Hsw & Hsh & Hg & Hp).
  rewrite Hc in Hc'. injection Hc' as -> _ _ _.
  destruct (well_formed_spec _ _ Hwf) as (Hw0 & _ & Hgrid & Hvals & Hpal).
  assert (Hsub : forall v, In v (data scaled) -> In v (data image_bit)).
  { intros v Hv.
    destruct (data_elem_pixel _ _ Hg Hv) as (X & Y & Hin & Hget).
    apply in_bounds_true in Hin.
    rewrite Hp in Hget by lia.
    eapply getpixel_elem, Hget. }
  split; [|exact Hsub].
  unfold well_formed. rewrite !andb_true_iff.
  destruct Hg as (_ & _ & Hl).
  repeat split.
  - rewrite Hsw. div_lia.
  - rewrite Hsh. reflexivity.
  - rewrite Hl, Hsw, Hsh. apply Z.eqb_eq. div_lia.
  - apply forallb_forall. intros v Hv. specialize (Hvals v (Hsub v Hv)). lia.
  - lia.
Qed.


(** ** What validation touches *)

(** X4. Validation and scaling touch neither the clock nor the display
    group, whatever bitmap is loaded: [classify] ends normally or by
    raising a [ValueError] or an [IndexError], in both cases with the
    clock and the group as they were and at most one line printed, a
    line that names no clip. *)
Theorem classify_only_prints bitmap_name image_bit image_pal w :
  (forall r w', classify bitmap_name image_bit image_pal w = Done r w' ->
     now w' = now w /\ group w' = group w /\
     exists evs, trace w' = trace w ++ evs /\ quiet evs) /\
  (forall e w', classify bitmap_name image_bit image_pal w = Raised e w' ->
     now w' = now w /\ group w' = group w /\
     ((exists m, e = ValueError m) \/ e = IndexError) /\
     exists evs, trace w' = trace w ++ evs /\ quiet evs) /\
  classify bitmap_name image_bit image_pal w <> OutOfFuel.
Proof.
  split; [|split].
  - intros [[[fb fw] fh] total] w' Hc.
    destruct (classify_done _ _ _ _ _ _ _ _ _ Hc) as (_ & _ & _ & _ & _ & [-> | ->]);
      cbn [emit now group trace]; (split; [reflexivity|split; [reflexivity|]]);
      eexists; (split; [reflexivity|]); unfold quiet; auto.
  - intros e w' Hc. unfold classify in Hc.
    destruct (height image_bit =? 32).
    + destruct (negb (width image_bit mod 32 =? 0)).
      * injection Hc as <- <-. repeat split; eauto.
        exists []. rewrite app_nil_r. unfold quiet. auto.
      * unfold bind, print, lift, ret in Hc.
        destruct (Bitmap_new _ _ _) as [d|e0] eqn:En.
        -- destruct (scale_frames _ _ d) as [d'|e1] eqn:Es; [discriminate|].
           injection Hc as <- <-. cbn [emit now group trace].
           repeat split.
           ++ destruct (scale_frames_err _ _ _ _ Es) as [-> | ->]; eauto.
           ++ exists [Printed ScalingLine]. unfold quiet. auto.
        -- injection Hc as <- <-. cbn [emit now group trace].
           rewrite (Bitmap_new_err _ _ _ _ En). repeat split; eauto.
           exists [Printed ScalingLine]. unfold quiet. auto.
    + destruct (height image_bit =? 64).
      * destruct (negb (width image_bit mod 64 =? 0)); [|discriminate].
        injection Hc as <- <-. repeat split; eauto.
        exists []. rewrite app_nil_r. unfold quiet. auto.
      * injection Hc as <- <-. repeat split; eauto.
        exists []. rewrite app_nil_r. unfold quiet. auto.
  - unfold classify.
    destruct (height image_bit =? 32).
    + destruct (negb (width image_bit mod 32 =? 0)); [discriminate|].
      unfold bind, print, lift, ret.
      destruct (Bitmap_new _ _ _); [|discriminate].
      destruct (scale_frames _ _ _); discriminate.
    + destruct (height image_bit =? 64); [|discriminate].
      destruct (negb (width image_bit mod 64 =? 0)); discriminate.
Qed.

(** ** Clips that fail before playback *)

(** X5. A clip that cannot be loaded, or whose geometry is not
    supported, makes [play_animation] raise with the world exactly as
    it found it: nothing is printed and the group is not cleared, so
    the sprite of the previous clip is still installed when the error
    reaches the main loop. *)
Theorem play_animation_fails_before_touching bitmap_name duration w :
  (forall e, load (bmp_file_path bitmap_name) = Err e ->
     play_animation bitmap_name duration w = Raised e w) /\
  (forall image_bit image_pal,
     load (bmp_file_path bitmap_name) = Ok (image_bit, image_pal) ->
     unsupported_geometry image_bit = true ->
     exists e, is_geometry_error e = true /\
               play_animation bitmap_name duration w = Raised e w).
Proof.
  split.
  - intros e Hl. apply play_animation_load_error. assumption.
  - intros image_bit image_pal Hl Hu.
    assert (Hc : exists e, is_geometry_error e = true /\
                   classify bitmap_name image_bit image_pal w = Raised e w).
    { unfold unsupported_geometry in Hu. unfold classify.
      destruct (height image_bit =? 32) eqn:H32.
      - assert (H64 : (height image_bit =? 64) = false) by lia.
        rewrite H64 in Hu.
        destruct (negb (width image_bit mod 32 =? 0)); [|discriminate].
        eexists; (split; [|reflexivity]); reflexivity.
      - destruct (height image_bit =? 64) eqn:H64.
        + destruct (negb (width image_bit mod 64 =? 0)); [|discriminate].
          eexists; (split; [|reflexivity]); reflexivity.
        + eexists; (split; [|reflexivity]); reflexivity. }
    destruct Hc as (e & He & Hc). exists e. split; [exact He|].
    eapply play_animation_classify_error; eassumption.
Qed.

(** ** Playback for no time *)

(** X6. With a duration of zero or less the loop body never runs:
    [play_animation] still replaces the group by the one new grid, at
    tile 0, but shows no frame, prints no frame line and does not
    sleep.  This holds for any loop budget and even for a strip of no
    frames. *)
Theorem play_animation_zero_duration bitmap_name duration w image_bit image_pal
    fb fw fh total w1 :
  duration <= 0 ->
  load (bmp_file_path bitmap_name) = Ok (image_bit, image_pal) ->
  classify bitmap_name image_bit image_pal w = Done (fb, fw, fh, total) w1 ->
  play_animation bitmap_name duration w =
  Done tt {| now := now w;
             group := [{| bitmap := fb; pixel_shader := image_pal;
                          tile_width := fw; tile_height := fh; tile := 0 |}];
             trace := trace w1 |}.
Proof.
  intros Hd Hl Hc.
  rewrite (play_animation_classified _ _ _ _ _ _ _ _ _ _ Hl Hc).
  rewrite play_loop_unfold. cbn [now].
  replace (now w1 - now w1 <? duration) with false by lia.
  destruct (classify_done _ _ _ _ _ _ _ _ _ Hc) as (_ & _ & _ & _ & _ & [-> | ->]);
    reflexivity.
Qed.


(** ** A clip from file to last frame *)

Lemma shown_quiet evs : quiet evs -> shown evs = [].
Proof. intros [-> | [-> | ->]]; reflexivity. Qed.

Lemma shown_slept seconds n : shown (repeat (Slept seconds) n) = [].
Proof. induction n as [|n IH]; [reflexivity|exact IH]. Qed.

(** X7. A well-formed clip of a supported geometry plays to the end:
    whatever the group held before, it then holds exactly one grid,
    over a well-formed 64-high bitmap and the loaded palette, cut in
    64x64 tiles; the frames shown are [k mod total] for the passes
    [k = 0, 1, ...] made, where [total] is the number of tiles; and
    the grid is left on the last frame shown.  How many passes the
    clock allows is left open. *)
Theorem valid_clip_plays_to_the_end bitmap_name duration w image_bit image_pal :
  0 < animation_speed -> (ticks duration < fuel)%nat ->
  load (bmp_file_path bitmap_name) = Ok (image_bit, image_pal) ->
  well_formed image_bit image_pal = true ->
  unsupported_geometry image_bit = false ->
  exists g w' (passes : nat),
    play_animation bitmap_name duration w = Done tt w' /\
    group w' = [g] /\
    pixel_shader g = image_pal /\ tile_width g = 64 /\ tile_height g = 64 /\
    well_formed (bitmap g) image_pal = true /\ height (bitmap g) = 64 /\
    1 <= tiles_in_bitmap g /\
    shown (trace w') =
      shown (trace w) ++
      map (fun k => Z.of_nat k mod tiles_in_bitmap g) (seq 0 passes) /\
    (passes <> O -> tile g = Z.of_nat (passes - 1) mod tiles_in_bitmap g) /\
    (passes = O -> tile g = 0).
Proof.
  intros Hs Hfuel Hl Hwf Hgeo.
  destruct (well_formed_spec _ _ Hwf) as (Hw0 & _).
  assert (Hc : exists fb total w1,
            classify bitmap_name image_bit image_pal w = Done (fb, 64, 64, total) w1).
  { unfold unsupported_geometry in Hgeo.
    destruct (height image_bit =? 32) eqn:H32.
    - assert (H64 : (height image_bit =? 64) = false) by lia.
      rewrite H64 in Hgeo.
      destruct (width image_bit mod 32 =? 0) eqn:Hm; [|discriminate].
      destruct (classify_legacy bitmap_name _ _ w Hwf) as (scaled & Hc & _);
        [lia | lia | eauto].
    - destruct (height image_bit =? 64) eqn:H64; [|discriminate].
      destruct (width image_bit mod 64 =? 0) eqn:Hm; [|discriminate].
      rewrite classify_target by lia. eauto. }
  destruct Hc as (fb & total & w1 & Hc).
  destruct (final_bitmap_ok bitmap_name image_bit image_pal w fb total w1 Hwf Hc)
    as (Hfbwf & Ht).
  destruct (classify_done _ _ _ _ _ _ _ _ _ Hc) as (_ & _ & Hh & Hw & _ & Hw1).
  rewrite (play_animation_classified _ _ _ _ _ _ _ _ _ _ Hl Hc).
  match goal with
  | |- context [play_loop fuel _ _ _ _ ?g0 _ ?w0] =>
      destruct (play_loop_run bitmap_name total (now w1) duration Hs ltac:(lia)
                  (ticks duration) O fuel g0 w0)
        as (g & Hrun & Hsame & Hlast & Hfirst);
        [lia | lia | cbn [now]; lia | reflexivity | |]
  end.
  { unfold tiles_in_bitmap. cbn. rewrite Hh, Hw. change (64 / 64) with 1. lia. }
  rewrite Z.mod_0_l in Hrun by lia.
  destruct Hsame as (Hb & Hp & Htw & Hth). cbn in Hb, Hp, Htw, Hth.
  assert (Htiles : tiles_in_bitmap g = total).
  { unfold tiles_in_bitmap. rewrite Hb, Htw, Hth, Hh, Hw.
    change (64 / 64) with 1. lia. }
  eexists g, _, (ticks duration). split; [exact Hrun|]. cbn [now group trace].
  rewrite Hb, Htiles.
  assert (Hsh : shown (trace w1) = shown (trace w)).
  { destruct Hw1 as [-> | ->]; cbn [emit trace];
      rewrite shown_app, app_nil_r; reflexivity. }
  repeat split; try assumption; try lia.
  - rewrite shown_app, shown_ticks, map_map, Hsh. reflexivity.
  - intros H0. rewrite (Hfirst H0). reflexivity.
Qed.

(** ** The only sleeps of a failed clip *)

Lemma slept_app evs evs' : slept (evs ++ evs') = slept evs ++ slept evs'.
Proof.
  induction evs as [|ev rest IH]; [reflexivity|].
  destruct ev; cbn; rewrite IH; reflexivity.
Qed.

Lemma slept_silent evs : silent evs -> slept evs = [].
Proof.
  intros (q & [-> | [-> | ->]] & [-> | ->]); reflexivity.
Qed.

Lemma slept_repeat seconds n :
  slept (repeat (Slept seconds) n) = repeat seconds n.
Proof. induction n as [|n IH]; [reflexivity|]. cbn. rewrite IH. reflexivity. Qed.

(** X8. A clip whose playback raises never sleeps on its own: the only
    sleeps of its iteration of the main loop are the
    [transition_frames] sleeps of [animation_speed] of the blank
    interval, and the iteration ends with the group empty. *)
Theorem failed_clip_sleeps_only_the_blank_interval bitmap_name w e w1 :
  0 < animation_speed -> (ticks play_time < fuel)%nat ->
  play_animation bitmap_name play_time w = Raised e w1 ->
  exists w',
    clip_iteration bitmap_name w = Done tt w' /\
    slept (trace w') =
      slept (trace w) ++ repeat animation_speed (Z.to_nat transition_frames) /\
    group w' = [].
Proof.
  intros Hs Hfuel Hp.
  destruct (play_animation_outcome bitmap_name play_time w Hs Hfuel)
    as [(w2 & Hp2)|(e2 & w2 & evs & Hp2 & _ & Htr & Hq)]; [congruence|].
  rewrite Hp in Hp2. injection Hp2 as <- <-.
  eexists. split; [apply clip_iteration_raised; [lia|exact Hp]|].
  unfold blanked, emit; cbn [group trace]. split; [|reflexivity].
  rewrite Htr, !slept_app, (slept_silent _ Hq), slept_repeat. cbn [slept].
  rewrite !app_nil_r. reflexivity.
Qed.

(** [classify] has no loop that can run out of budget. *)
Lemma classify_never_out_of_fuel bitmap_name image_bit image_pal w :
  classify bitmap_name image_bit image_pal w = OutOfFuel -> False.
Proof.
  unfold classify.
  destruct (height image_bit =? 32).
  - destruct (negb (width image_bit mod 32 =? 0)); [discriminate|].
    unfold bind, print, lift, ret.
    destruct (Bitmap_new _ _ _); [|discriminate].
    destruct (scale_frames _ _ _); discriminate.
  - destruct (height image_bit =? 64); [|discriminate].
    destruct (negb (width image_bit mod 64 =? 0)); discriminate.
Qed.

(** ** The handler is not protected *)

Lemma play_loop_negative_speed n bitmap_name total_frames start_time duration
    image_grid frame w :
  animation_speed < 0 -> (0 < n)%nat ->
  play_loop n bitmap_name total_frames start_time duration image_grid frame w
  <> OutOfFuel.
Proof.
  intros Hs Hn. destruct n as [|n]; [lia|].
  rewrite play_loop_unfold.
  destruct (now w - start_time <? duration); [|discriminate].
  unfold bind at 1, image_grid_set, settile.
  unfold bind at 1, lift.
  destruct (pymod (frame + 1) total_frames); [|discriminate].
  unfold bind at 1, print. unfold bind at 1, sleep. cbn [emit now].
  replace (animation_speed <? 0) with true by lia. discriminate.
Qed.

(** X9. Only the [try] block is guarded.  With a negative
    [animation_speed] and at least one transition frame, the sleep of
    the transition raises [ValueError] inside the [except] handler as
    well, so every iteration raises, with the group already emptied,
    and the main loop stops at its first clip. *)
Theorem handler_error_stops_the_loop :
  animation_speed < 0 -> 0 < transition_frames -> (0 < fuel)%nat ->
  (forall bitmap_name w, exists w',
     clip_iteration bitmap_name w = Raised (ValueError SleepLengthNegative) w' /\
     group w' = []) /\
  (forall bitmap_name rest rounds w, bitmap_names = bitmap_name :: rest ->
     exists w',
       main_loop (S rounds) w = Raised (ValueError SleepLengthNegative) w').
Proof.
  intros Hs Ht Hfuel.
  assert (Hclip : forall bitmap_name w, exists w',
            clip_iteration bitmap_name w =
              Raised (ValueError SleepLengthNegative) w' /\ group w' = []).
  { intros bitmap_name w. unfold clip_iteration, try_except.
    unfold bind at 1.
    destruct (play_animation bitmap_name play_time w) as [[] w1|e w1|] eqn:Hp.
    - rewrite (transition_raises_on_negative_speed w1 Hs Ht).
      unfold bind, print.
      rewrite (transition_raises_on_negative_speed _ Hs Ht).
      eexists. split; reflexivity.
    - unfold bind, print.
      rewrite (transition_raises_on_negative_speed _ Hs Ht).
      eexists. split; reflexivity.
    - exfalso. unfold play_animation in Hp. unfold bind at 1, lift in Hp.
      destruct (load _) as [[image_bit image_pal]|e]; [|discriminate].
      unfold bind at 1 in Hp.
      destruct (classify bitmap_name image_bit image_pal w)
        as [[[[fb fw] fh] total] w1|e w1|] eqn:Hc; [|discriminate|].
      + unfold bind at 1, clear_group in Hp.
        unfold bind at 1, group_append in Hp.
        unfold bind at 1, monotonic in Hp.
        eapply play_loop_negative_speed; eassumption.
      + unfold classify in Hc.
        destruct (height image_bit =? 32).
        * destruct (negb (width image_bit mod 32 =? 0)); [discriminate|].
          unfold bind, print, lift, ret in Hc.
          destruct (Bitmap_new _ _ _); [|discriminate].
          destruct (scale_frames _ _ _); discriminate.
        * destruct (height image_bit =? 64); [|discriminate].
          destruct (negb (width image_bit mod 64 =? 0)); discriminate. }
  split; [exact Hclip|].
  intros bitmap_name rest rounds w Hnames.
  destruct (Hclip bitmap_name w) as (w' & Hc & _).
  exists w'. cbn [main_loop]. rewrite Hnames. cbn [for_each_clip].
  unfold bind. rewrite Hc. reflexivity.
Qed.

(** ** A strip of no frames *)

(** X10. A 64-high bitmap of width zero passes the width check, since
    zero is a multiple of 64, and is given no frame.  Played for a
    positive duration, its first pass writes tile 0 to the grid and
    then raises [ZeroDivisionError] at the frame advance: the new grid
    is installed, no frame line is printed, no sleep is made. *)
Theorem zero_width_clip_raises bitmap_name duration w image_bit image_pal :
  (0 < fuel)%nat -> 0 < duration ->
  load (bmp_file_path bitmap_name) = Ok (image_bit, image_pal) ->
  width image_bit = 0 -> height image_bit = 64 ->
  unsupported_geometry image_bit = false /\
  play_animation bitmap_name duration w =
    Raised ZeroDivisionError
      {| now := now w;
         group := [{| bitmap := image_bit; pixel_shader := image_pal;
                      tile_width := 64; tile_height := 64; tile := 0 |}];
         trace := trace w ++ [Printed FullScreenLine; Shown 0] |}.
Proof.
  intros Hfuel Hd Hl Hw Hh. split.
  { unfold unsupported_geometry. rewrite Hw, Hh. reflexivity. }
  pose proof (zero_width_passes_with_no_frames bitmap_name image_bit image_pal w
                Hh Hw) as Hc.
  rewrite (play_animation_classified _ _ _ _ _ _ _ _ _ _ Hl Hc).
  rewrite play_loop_no_frames by assumption.
  cbn [emit now group trace write_through with_tile bitmap pixel_shader
       tile_width tile_height].
  replace (now w - now w <? duration) with true by lia.
  rewrite <- app_assoc. reflexivity.
Qed.

(** ** A show with no file *)

Lemma main_loop_as_list rounds w :
  main_loop rounds w = for_each_clip (concat (repeat bitmap_names rounds)) w.
Proof.
  revert w. induction rounds as [|r IH]; intros w; [reflexivity|].
  cbn [main_loop repeat concat]. rewrite for_each_clip_app.
  unfold bind. destruct (for_each_clip bitmap_names w); try reflexivity.
  apply IH.
Qed.

Lemma in_concat_repeat {A : Type} (x : A) (l : list A) n :
  In x (concat (repeat l n)) -> In x l.
Proof.
  induction n as [|n IH]; cbn [repeat concat]; [intros []|].
  rewrite in_app_iff. intros [H|H]; [exact H|exact (IH H)].
Qed.

Lemma for_each_clip_all_missing (err : string -> exn) names :
  0 <= animation_speed ->
  (forall name, In name names -> load (bmp_file_path name) = Err (err name)) ->
  forall w, exists w',
    for_each_clip names w = Done tt w' /\
    now w' = now w + Z.of_nat (length names) *
                     (Z.of_nat (Z.to_nat transition_frames) * animation_speed) /\
    trace w' = trace w ++
      flat_map (fun name =>
                  Printed (ErrorLine name (err name)) ::
                  repeat (Slept animation_speed) (Z.to_nat transition_frames))
        names.
Proof.
  intros Hs. induction names as [|name rest IH]; intros Hmiss w.
  - exists w. cbn. rewrite app_nil_r. repeat split. lia.
  - pose proof (play_animation_load_error name play_time w _
                  (Hmiss name (or_introl eq_refl))) as Hp.
    pose proof (clip_iteration_raised _ _ _ _ Hs Hp) as Hc.
    rewrite (for_each_clip_cons _ rest _ _ Hc).
    destruct (IH (fun n Hn => Hmiss n (or_intror Hn))
                (blanked (emit (Printed (ErrorLine name (err name))) w)))
      as (w' & Hrun & Hnow & Htr).
    exists w'. split; [exact Hrun|]. split.
    + rewrite Hnow. unfold blanked, emit; cbn [now length]. lia.
    + rewrite Htr. unfold blanked, emit; cbn [trace flat_map].
      rewrite <- !app_assoc. reflexivity.
Qed.

(** X11. When none of the configured files can be loaded the show is
    one error line per clip, each followed by the blank interval, in
    the order of [bitmap_names], round after round: the main loop keeps
    going, shows no frame, and its clock advances by one blank
    interval per clip. *)
Theorem show_with_no_file_logs_in_order (err : string -> exn) :
  0 <= animation_speed ->
  (forall name, In name bitmap_names ->
     load (bmp_file_path name) = Err (err name)) ->
  forall rounds w, exists w',
    main_loop rounds w = Done tt w' /\
    trace w' = trace w ++
      flat_map (fun name =>
                  Printed (ErrorLine name (err name)) ::
                  repeat (Slept animation_speed) (Z.to_nat transition_frames))
        (concat (repeat bitmap_names rounds)) /\
    now w' = now w + Z.of_nat (rounds * length bitmap_names) *
                     (Z.of_nat (Z.to_nat transition_frames) * animation_speed) /\
    shown (trace w') = shown (trace w).
Proof.
  intros Hs Hmiss rounds w. rewrite main_loop_as_list.
  destruct (for_each_clip_all_missing err (concat (repeat bitmap_names rounds)) Hs
              (fun n Hn => Hmiss n (in_concat_repeat _ _ _ Hn)) w)
    as (w' & Hrun & Hnow & Htr).
  exists w'. split; [exact Hrun|]. split; [exact Htr|]. split.
  - rewrite Hnow. f_equal. f_equal. f_equal.
    clear. induction rounds as [|r IH]; [reflexivity|].
    cbn [repeat concat]. rewrite length_app, IH. lia.
  - rewrite Htr, shown_app.
    assert (Hnone : forall names,
              shown (flat_map (fun name =>
                       Printed (ErrorLine name (err name)) ::
                       repeat (Slept animation_speed) (Z.to_nat transition_frames))
                     names) = []).
    { induction names as [|n rest IH]; [reflexivity|].
      cbn [flat_map]. rewrite shown_app. cbn [shown].
      rewrite shown_slept, IH. reflexivity. }
    rewrite Hnone, app_nil_r. reflexivity.
Qed.

End Program.

(** * The properties on the configured show *)

Lemma legacy_scaling_replicates_blocks_witness :
  well_formed Sample.octopus Sample.palette = true /\
  exists scaled,
    classify "octopus" Sample.octopus Sample.palette Sample.boot =
      Done (scaled, 64, 64, 3) (emit (Printed ScalingLine) Sample.boot) /\
    width scaled = 192 /\ height scaled = 64 /\
    getpixel scaled 70 3 = getpixel Sample.octopus 35 1.
Proof.
  split; [vm_compute; reflexivity|].
  destruct (legacy_scaling_replicates_blocks "octopus" Sample.octopus
              Sample.palette Sample.boot)
    as (scaled & Hc & Hw & Hh & _ & Hp);
    [vm_compute; reflexivity | reflexivity | reflexivity |].
  exists scaled. split; [exact Hc|]. split; [exact Hw|]. split; [exact Hh|].
  apply (Hp 70 3); rewrite ?Hw, ?Hh; vm_compute; split; congruence.
Defined.

Lemma main_loop_isolates_clip_errors_witness :
  0 < Config.animation_speed /\
  (ticks Config.animation_speed Config.play_time < Sample.fuel)%nat /\
  exists w',
    main_loop Config.animation_speed Config.play_time Config.transition_frames
      Config.image_path Config.bitmap_names Sample.load Sample.fuel 2
      Sample.boot = Done tt w'.
Proof.
  assert (Hs : 0 < Config.animation_speed) by reflexivity.
  assert (Hf : (ticks Config.animation_speed Config.play_time < Sample.fuel)%nat)
    by (vm_compute; lia).
  split; [exact Hs|]. split; [exact Hf|].
  destruct (main_loop_isolates_clip_errors Config.animation_speed
              Config.play_time Config.transition_frames Config.image_path
              Config.bitmap_names Sample.load Sample.fuel Hs Hf)
    as (_ & _ & Hrounds & _).
  apply Hrounds.
Defined.

Lemma geometry_error_iff_unsupported_witness :
  classify "ghost" Sample.thumbnail Sample.palette Sample.boot =
    Raised (ValueError (HeightNot32Or64 "ghost" 16)) Sample.boot /\
  exists e w',
    is_geometry_error e = true /\
    clip_iteration Config.animation_speed Config.play_time
      Config.transition_frames Config.image_path Sample.load Sample.fuel
      "ghost" Sample.boot = Done tt w'.
Proof.
  destruct (geometry_error_iff_unsupported Config.animation_speed
              Config.play_time Config.transition_frames Config.image_path
              Sample.load Sample.fuel "ghost" Sample.thumbnail Sample.palette
              Sample.boot)
    as (_ & H16 & Hloop).
  split; [apply H16; reflexivity|].
  destruct Hloop as (e & w' & He & Hc & _);
    [vm_compute; congruence | reflexivity | reflexivity |].
  exists e, w'. split; assumption.
Defined.

Lemma target_strip_is_unchanged_witness :
  height Sample.mona_half = 64 /\ width Sample.mona_half mod 64 = 0 /\
  classify "mona-half" Sample.mona_half Sample.palette Sample.boot =
    Done (Sample.mona_half, 64, 64, 1) (emit (Printed FullScreenLine) Sample.boot).
Proof.
  split; [reflexivity|]. split; [reflexivity|].
  exact (proj1 (target_strip_is_unchanged Config.animation_speed
                  Config.image_path Sample.load Sample.fuel "mona-half"
                  Sample.mona_half Sample.palette Sample.boot
                  eq_refl eq_refl)).
Defined.

Lemma frame_index_cycles_witness :
  exists w',
    play_loop Config.animation_speed Sample.fuel "octopus" 3
      (now Sample.showing) Config.play_time Sample.three_frames 0
      Sample.showing = Done tt w' /\
    shown (trace w') = map (fun k => Z.of_nat k mod 3) (seq 0 30).
Proof.
  destruct (frame_index_cycles Config.animation_speed Sample.fuel "octopus" 3
              Config.play_time Sample.three_frames Sample.showing)
    as (w' & Hrun & Hshown & _);
    [reflexivity | lia | vm_compute; lia | reflexivity | reflexivity |].
  exists w'. split; [exact Hrun|exact Hshown].
Defined.


Lemma frame_count_is_width_over_tile_witness :
  well_formed Sample.octopus Sample.palette = true /\
  exists scaled,
    classify "octopus" Sample.octopus Sample.palette Sample.boot =
      Done (scaled, 64, 64, 3) (emit (Printed ScalingLine) Sample.boot) /\
    width scaled = 192 /\ height scaled = 64.
Proof.
  assert (Hwf : well_formed Sample.octopus Sample.palette = true)
    by (vm_compute; reflexivity).
  split; [exact Hwf|].
  destruct (frame_count_is_width_over_tile "octopus" Sample.octopus
              Sample.palette Sample.boot) as (_ & Hok).
  destruct (Hok Hwf) as (_ & _ & H96).
  apply H96; reflexivity.
Defined.

Lemma transition_blanks_then_waits_witness :
  0 <= Config.animation_speed /\ 0 <= Config.transition_frames /\
  exists w',
    transition_to_black Config.animation_speed Config.transition_frames
      Sample.showing = Done tt w' /\
    group w' = [] /\ now w' = 500.
Proof.
  assert (Hs : 0 <= Config.animation_speed) by (vm_compute; congruence).
  assert (Ht : 0 <= Config.transition_frames) by (vm_compute; congruence).
  split; [exact Hs|]. split; [exact Ht|].
  destruct (transition_blanks_then_waits Config.animation_speed
              Config.play_time Config.transition_frames Config.image_path
              Sample.load Sample.fuel) as (_ & _ & _ & Hnonneg).
  destruct (Hnonneg Hs Ht) as (Hblank & _).
  destruct (Hblank Sample.showing) as (w' & Hrun & Hgrp & Hnow & _).
  exists w'. split; [exact Hrun|]. split; [exact Hgrp|exact Hnow].
Defined.

Lemma validated_strip_has_a_frame_witness :
  0 < width Sample.octopus /\
  exists fb total w1,
    classify "octopus" Sample.octopus Sample.palette Sample.boot =
      Done (fb, 64, 64, total) w1 /\
    1 <= total.
Proof.
  assert (Hw : 0 < width Sample.octopus) by reflexivity.
  split; [exact Hw|].
  destruct (validated_strip_has_a_frame Config.animation_speed "octopus"
              Sample.octopus Sample.palette Sample.boot Hw) as (Hall & Hex).
  destruct Hex as (fb & total & w1 & Hc);
    [vm_compute; reflexivity | left; split; reflexivity |].
  exists fb, total, w1. split; [exact Hc|].
  apply (Hall _ _ _ _ _ Hc).
Defined.

(** The bitmap of no columns has height 64 and a width that is a
    multiple of 64, yet it is classified with [total_frames = 0], and
    its playback divides by zero at the first frame advance. *)
Lemma validated_strip_has_a_frame_counterexample :
  height Sample.no_columns = 64 /\
  width Sample.no_columns mod 64 = 0 /\
  classify "octopus" Sample.no_columns Sample.palette Sample.boot =
    Done (Sample.no_columns, 64, 64, 0)
      (emit (Printed FullScreenLine) Sample.boot) /\
  ~ 1 <= 0 /\
  pymod (0 + 1) 0 = Err ZeroDivisionError /\
  exists w',
    play_animation Config.animation_speed Config.image_path
      Sample.load_no_columns Sample.fuel "octopus" Config.play_time
      Sample.boot = Raised ZeroDivisionError w'.
Proof.
  split; [reflexivity|]. split; [reflexivity|]. split; [reflexivity|].
  split; [lia|]. split; [reflexivity|].
  eexists. vm_compute. reflexivity.
Qed.

Lemma helper_agrees_with_inline_loop_witness :
  tile_matches Sample.octopus_frame1 Sample.octopus 1 = true /\
  exists tile strip,
    scale_bitmap_2x Sample.octopus_frame1 Sample.palette = Ok tile /\
    classify "octopus" Sample.octopus Sample.palette Sample.boot =
      Done (strip, 64, 64, 3) (emit (Printed ScalingLine) Sample.boot) /\
    getpixel tile 5 9 = getpixel strip (64 + 5) 9.
Proof.
  assert (Hm : tile_matches Sample.octopus_frame1 Sample.octopus 1 = true)
    by (vm_compute; reflexivity).
  split; [exact Hm|].
  destruct (helper_agrees_with_inline_loop "octopus" Sample.octopus
              Sample.palette Sample.boot Sample.octopus_frame1 1)
    as (tile & strip & Ht & Hc & _ & _ & Hp);
    [vm_compute; reflexivity | reflexivity | reflexivity
     | vm_compute; split; congruence | vm_compute; reflexivity
     | reflexivity | reflexivity | exact (tile_matches_spec _ _ _ Hm) |].
  exists tile, strip. split; [exact Ht|]. split; [exact Hc|].
  apply (Hp 5 9); lia.
Defined.

Lemma scale_bitmap_2x_doubles_witness :
  well_formed Sample.octopus_frame1 Sample.palette = true /\
  exists scaled,
    scale_bitmap_2x Sample.octopus_frame1 Sample.palette = Ok scaled /\
    getpixel scaled 10 7 = getpixel Sample.octopus_frame1 5 3.
Proof.
  split; [vm_compute; reflexivity|].
  destruct (scale_bitmap_2x_doubles Sample.octopus_frame1 Sample.palette)
    as (scaled & Hs & _ & _ & Hp & _);
    [vm_compute; reflexivity | vm_compute; congruence | vm_compute; congruence |].
  exists scaled. split; [exact Hs|]. apply (Hp 10 7); lia.
Defined.

Lemma final_bitmap_is_well_formed_witness :
  well_formed Sample.octopus Sample.palette = true /\
  exists scaled,
    classify "octopus" Sample.octopus Sample.palette Sample.boot =
      Done (scaled, 64, 64, 3) (emit (Printed ScalingLine) Sample.boot) /\
    well_formed scaled Sample.palette = true.
Proof.
  assert (Hwf : well_formed Sample.octopus Sample.palette = true)
    by (vm_compute; reflexivity).
  split; [exact Hwf|].
  destruct (classify_legacy "octopus" Sample.octopus Sample.palette Sample.boot
              Hwf eq_refl eq_refl) as (scaled & Hc & _).
  exists scaled. split; [exact Hc|].
  exact (proj1 (final_bitmap_is_well_formed "octopus" Sample.octopus
                  Sample.palette Sample.boot scaled 64 64 _ _ Hwf Hc)).
Defined.


Lemma classify_only_prints_witness :
  classify "ghost" Sample.thumbnail Sample.palette Sample.boot <> OutOfFuel.
Proof.
  apply (classify_only_prints "ghost" Sample.thumbnail Sample.palette Sample.boot).
Defined.

Lemma play_animation_fails_before_touching_witness :
  play_animation Config.animation_speed Config.image_path Sample.load
    Sample.fuel "parrot" Config.play_time Sample.showing =
  Raised Sample.missing Sample.showing.
Proof.
  apply (play_animation_fails_before_touching Config.animation_speed
           Config.image_path Sample.load Sample.fuel "parrot" Config.play_time
           Sample.showing).
  reflexivity.
Defined.

Lemma play_animation_zero_duration_witness :
  play_animation Config.animation_speed Config.image_path Sample.load
    Sample.fuel "mona-half" 0 Sample.showing =
  Done tt {| now := 0;
             group := [{| bitmap := Sample.mona_half;
                          pixel_shader := Sample.palette;
                          tile_width := 64; tile_height := 64; tile := 0 |}];
             trace := [Printed FullScreenLine] |}.
Proof.
  apply (play_animation_zero_duration Config.animation_speed Config.image_path
           Sample.load Sample.fuel "mona-half" 0 Sample.showing
           Sample.mona_half Sample.palette Sample.mona_half 64 64 1
           (emit (Printed FullScreenLine) Sample.showing));
    [lia | reflexivity | vm_compute; reflexivity].
Defined.

Lemma valid_clip_plays_to_the_end_witness :
  exists g w',
    play_animation Config.animation_speed Config.image_path Sample.load
      Sample.fuel "octopus" Config.play_time Sample.showing = Done tt w' /\
    group w' = [g] /\ well_formed (bitmap g) Sample.palette = true.
Proof.
  destruct (valid_clip_plays_to_the_end Config.animation_speed Config.image_path
              Sample.load Sample.fuel "octopus" Config.play_time Sample.showing
              Sample.octopus Sample.palette)
    as (g & w' & passes & Hrun & Hgrp & _ & _ & _ & Hwf & _);
    [reflexivity | vm_compute; lia | reflexivity | vm_compute; reflexivity
     | reflexivity |].
  exists g, w'. split; [exact Hrun|]. split; [exact Hgrp|exact Hwf].
Defined.

Lemma failed_clip_sleeps_only_the_blank_interval_witness :
  exists w',
    clip_iteration Config.animation_speed Config.play_time
      Config.transition_frames Config.image_path Sample.load Sample.fuel
      "parrot" Sample.showing = Done tt w' /\
    slept (trace w') = [100; 100; 100; 100; 100] /\
    group w' = [].
Proof.
  apply (failed_clip_sleeps_only_the_blank_interval Config.animation_speed
           Config.play_time Config.transition_frames Config.image_path
           Sample.load Sample.fuel "parrot" Sample.showing Sample.missing
           Sample.showing);
    [reflexivity | vm_compute; lia | reflexivity].
Defined.

Lemma handler_error_stops_the_loop_witness :
  exists w',
    main_loop (-100) Config.play_time Config.transition_frames
      Config.image_path Config.bitmap_names Sample.load Sample.fuel 3
      Sample.boot = Raised (ValueError SleepLengthNegative) w'.
Proof.
  destruct (handler_error_stops_the_loop (-100) Config.play_time
              Config.transition_frames Config.image_path Config.bitmap_names
              Sample.load Sample.fuel)
    as (_ & Hstop); [reflexivity | reflexivity | vm_compute; lia |].
  apply (Hstop "octopus"
           ["ghost"; "parrot"; "girl-earing-half"; "mona-half"] 2%nat).
  reflexivity.
Defined.

Lemma zero_width_clip_raises_witness :
  exists w',
    play_animation Config.animation_speed Config.image_path
      Sample.load_no_columns Sample.fuel "octopus" Config.play_time
      Sample.boot = Raised ZeroDivisionError w' /\
    now w' = 0.
Proof.
  destruct (zero_width_clip_raises Config.animation_speed Config.image_path
              Sample.load_no_columns Sample.fuel "octopus" Config.play_time
              Sample.boot Sample.no_columns Sample.palette)
    as (_ & Hrun);
    [vm_compute; lia | reflexivity | reflexivity | reflexivity | reflexivity |].
  eexists. split; [exact Hrun|reflexivity].
Defined.

Lemma show_with_no_file_logs_in_order_witness :
  exists w',
    main_loop Config.animation_speed Config.play_time Config.transition_frames
      Config.image_path Config.bitmap_names Sample.empty_store Sample.fuel 2
      Sample.boot = Done tt w' /\
    now w' = 5000.
Proof.
  destruct (show_with_no_file_logs_in_order Config.animation_speed
              Config.play_time Config.transition_frames Config.image_path
              Config.bitmap_names Sample.empty_store Sample.fuel
              (fun _ => Sample.missing))
    with (rounds := 2%nat) (w := Sample.boot)
    as (w' & Hrun & _ & Hnow & _);
    [vm_compute; congruence | intros name _; reflexivity |].
  exists w'. split; [exact Hrun|exact Hnow].
Defined.
